(** * Multi-user authentication and tenancy of the notebook application

    A shallow embedding of the authentication code of the repository:
    the SurrealQL schema and record access of
    [MULTI_USER_IMPLEMENTATION_PLAN.md] (user table, unique e-mail index,
    [user_access], table permissions, default administrator), the Python
    endpoints and middleware of the same plan ([signup], [signin],
    [JWTAuthMiddleware.dispatch], [Notebook.create]), and the React
    components [SignupForm] and [ProtectedRoute].

    Layout: definitions first (one module per layer), then the theorems. *)

From stdpp Require Import gmap strings list fin_maps.
From Stdlib Require Import ZArith Ascii.

Local Open Scope string_scope.

(** ** Python and JavaScript text helpers *)

Module Text.

(** [c.lower()] on an ASCII letter; other characters are kept. *)
Definition lower_ascii (c : ascii) : ascii :=
  let n := nat_of_ascii c in
  if (65 <=? n)%nat && (n <=? 90)%nat then ascii_of_nat (n + 32) else c.

(** [s.lower()] of Python, on ASCII text. *)
Fixpoint lower (s : string) : string :=
  match s with
  | EmptyString => EmptyString
  | String c s' => String (lower_ascii c) (lower s')
  end.

(** [s.startswith(p)]. *)
Fixpoint startswith (p s : string) : bool :=
  match p, s with
  | EmptyString, _ => true
  | String a p', String b s' => if Ascii.eqb a b then startswith p' s' else false
  | String _ _, EmptyString => false
  end.

(** [s.split(sep)] for a one-character separator: the pieces between the
    occurrences of [sep], empty pieces included; never the empty list. *)
Fixpoint split (sep : ascii) (s : string) : list string :=
  match s with
  | EmptyString => [EmptyString]
  | String c s' =>
      if Ascii.eqb c sep then EmptyString :: split sep s'
      else match split sep s' with
           | piece :: rest => String c piece :: rest
           | [] => [String c EmptyString]
           end
  end.

(** A JavaScript string is a sequence of UTF-16 code units. *)
Definition jsstring := list N.

(** The code units of an ASCII literal. *)
Fixpoint js (s : string) : jsstring :=
  match s with
  | EmptyString => []
  | String c s' => N_of_ascii c :: js s'
  end.

(** ECMAScript WhiteSpace and LineTerminator code points, the characters
    that [String.prototype.trim] strips. *)
Definition is_white_space (c : N) : bool :=
  ((9 <=? c) && (c <=? 13) || (c =? 32) || (c =? 160) || (c =? 5760)
   || (8192 <=? c) && (c <=? 8202) || (c =? 8232) || (c =? 8233)
   || (c =? 8239) || (c =? 8287) || (c =? 12288) || (c =? 65279))%N.

Fixpoint trim_start (s : jsstring) : jsstring :=
  match s with
  | c :: s' => if is_white_space c then trim_start s' else s
  | [] => []
  end.

(** [s.trim()]. *)
Definition trim (s : jsstring) : jsstring :=
  rev (trim_start (rev (trim_start s))).

(** JavaScript truthiness of a string: non-empty. *)
Definition js_truthy (s : jsstring) : bool :=
  match s with [] => false | _ :: _ => true end.

End Text.

(** ** The React components *)

Module Frontend.
Import Text.

(** *** [SignupForm] (frontend/src/components/auth/SignupForm.tsx) *)

(** [SignupCredentials] of lib/types/auth.ts. *)
Record SignupCredentials := {
  cred_email : jsstring;
  cred_password : jsstring;
  cred_name : jsstring;
}.

(** The [useState] cells the handler reads. *)
Record form_state := {
  name : jsstring;
  email : jsstring;
  password : jsstring;
  confirmPassword : jsstring;
}.

(** What [await signup(...)] does: resolves to a boolean or rejects. *)
Inductive signup_outcome := Resolves (success : bool) | Rejects.

(** The observable steps of one run of [handleSubmit]. *)
Inductive submit_effect :=
  | PreventDefault
  | SetLocalError (e : option string)
  | Signup (c : SignupCredentials)
  | ConsoleError.

(** [handleSubmit], lines 18-53: the effects in program order. *)
Definition handleSubmit (st : form_state) (out : signup_outcome) : list submit_effect :=
  PreventDefault :: SetLocalError None ::
  if negb (js_truthy (trim (name st))) then
    [SetLocalError (Some "Name is required")]
  else if negb (js_truthy (trim (email st))) then
    [SetLocalError (Some "Email is required")]
  else if negb (js_truthy (trim (password st))) then
    [SetLocalError (Some "Password is required")]
  else if (N.of_nat (List.length (password st)) <? 8)%N then
    [SetLocalError (Some "Password must be at least 8 characters")]
  else if negb (bool_decide (password st = confirmPassword st)) then
    [SetLocalError (Some "Passwords do not match")]
  else
    Signup {| cred_name := name st; cred_email := email st;
              cred_password := password st |}
    :: match out with Resolves _ => [] | Rejects => [ConsoleError] end.

(** The value of the [localError] cell after a run started from [init]. *)
Fixpoint localError_after (init : option string) (tr : list submit_effect) : option string :=
  match tr with
  | [] => init
  | SetLocalError e :: tr' => localError_after e tr'
  | _ :: tr' => localError_after init tr'
  end.

(** Whether a run called the signup operation. *)
Definition invokes_signup (tr : list submit_effect) : bool :=
  existsb (fun e => match e with Signup _ => true | _ => false end) tr.

(** A run that stops at a validation failure: the two opening effects and
    one error message. *)
Definition stops_with (msg : string) : list submit_effect :=
  [PreventDefault; SetLocalError None; SetLocalError (Some msg)].

(** A field is blank when nothing is left of it after trimming. *)
Definition blank (s : jsstring) : Prop := trim s = [].

(** *** [ProtectedRoute] (components/auth/ProtectedRoute.tsx, as listed in
    docs/features/authentication.md) *)

(** The fields of the auth store that the component reads;
    [authRequired] is [boolean | null]. *)
Record auth_store := {
  isAuthenticated : bool;
  hasHydrated : bool;
  authRequired : option bool;
}.

Inductive view := LoadingSpinner | Children.

(** The render body, lines 272-296. *)
Definition ProtectedRoute (st : auth_store) : view :=
  if negb (hasHydrated st) || bool_decide (authRequired st = None) then LoadingSpinner
  else if bool_decide (authRequired st = Some false) then Children
  else if isAuthenticated st then Children
  else LoadingSpinner.

(** An awaited call either returns or throws. *)
Inductive awaited (A : Type) := Returned (a : A) | Threw.
Arguments Returned {A} a.
Arguments Threw {A}.

Inductive route_effect :=
  | CallCheckAuthRequired
  | LogError
  | CallCheckAuth
  | StoreRedirect (pathname : string)
  | RouterPush (target : string).

Definition redirect_to_login (pathname : string) : list route_effect :=
  [StoreRedirect pathname; RouterPush "/login"].

(** The part of [checkAuthentication] after the requirement check
    (lines 248-266); [authRequired] is the value captured by the effect. *)
Definition check_credentials (st : auth_store) (pathname : string) (valid : bool)
  : list route_effect :=
  if bool_decide (authRequired st = Some false) then []
  else if negb (isAuthenticated st) then redirect_to_login pathname
  else CallCheckAuth :: if valid then [] else redirect_to_login pathname.

(** The effect, lines 228-270. [required] is the outcome of
    [checkAuthRequired()], [valid] what [checkAuth()] resolves to. *)
Definition checkAuthentication (st : auth_store) (pathname : string)
    (required : awaited bool) (valid : bool) : list route_effect :=
  if negb (hasHydrated st) then []
  else match authRequired st with
       | None =>
           CallCheckAuthRequired ::
           match required with
           | Returned r =>
               if negb r then [] else check_credentials st pathname valid
           | Threw => LogError :: check_credentials st pathname valid
           end
       | Some _ => check_credentials st pathname valid
       end.

End Frontend.

(** ** JSON values, as Python holds them after decoding *)

Module Json.

#[local] Set Warnings "-register-all".

(** Numbers are the integers: the claims read below are strings and
    times in seconds. *)
Inductive json :=
  | JNull
  | JBool (b : bool)
  | JNum (z : Z)
  | JStr (s : string)
  | JArr (l : list json)
  | JObj (l : list (string * json)).

(** Python truthiness ([if not v]) of a decoded value. *)
Definition truthy (v : json) : bool :=
  match v with
  | JNull => false
  | JBool b => b
  | JNum z => negb (z =? 0)%Z
  | JStr s => negb (bool_decide (s = ""))
  | JArr l => match l with [] => false | _ => true end
  | JObj l => match l with [] => false | _ => true end
  end.

End Json.

(** ** The database layer: schema, record access and permissions
    (MULTI_USER_IMPLEMENTATION_PLAN.md, Phase 1) *)

Module Surreal.

(** The claims of a token the database issues for a record. *)
Record claims := {
  ID : string;
  iat : Z;
  exp : Z;
}.

(** The database functions the schema and the record access call. Their
    code is the database's, not the repository's; the salt that
    [crypto::argon2::generate] draws is an explicit argument, and
    [jwt_sign] is the compact signed form of a claim set. *)
Class Builtins := {
  is_email : string → bool;
  argon2_generate : string → string → string;
  argon2_compare : string → string → bool;
  jwt_sign : claims → string;
}.

(** A row of [DEFINE TABLE user] (Step 1.1). *)
Record user := {
  email : string;
  password : string;
  name : string;
  role : string;
  created : Z;
  updated : Z;
}.

(** The user table, keyed by record id. *)
Abbreviation user_table := (gmap string user).

(** What a statement on the user table can fail with ([RecordExists],
    [FieldAssert], [DuplicateEmail] for the index [email_unique]), the
    one failure [db.signup] reports whatever made its SIGNUP clause
    fail ([SignupQueryFailed]: "the record access signup query
    failed"), and the empty selection of a signin ([NoRecord]). *)
Inductive db_error :=
  | RecordExists (rid : string)
  | FieldAssert (field : string)
  | DuplicateEmail
  | SignupQueryFailed
  | NoRecord.

(** [DEFINE INDEX email_unique ON user FIELDS email UNIQUE]: the index
    holds the stored strings and compares them as they are. *)
Definition email_indexed (tbl : user_table) (e : string) : bool :=
  bool_decide (map_Exists (λ _ u, email u = e) tbl).

(** What the unique index maintains: no two records hold the same
    e-mail string. *)
Definition emails_unique (tbl : user_table) : Prop :=
  ∀ k1 k2 u1 u2, tbl !! k1 = Some u1 → tbl !! k2 = Some u2 →
                 email u1 = email u2 → k1 = k2.

(** [CREATE user:<rid> CONTENT u] under the schema of Step 1.1: the record
    id must be free, [email] must pass its ASSERT, and the unique index
    must not hold the e-mail already. The table is returned unchanged
    when the statement fails. *)
Definition create_user `{!Builtins} (tbl : user_table) (rid : string) (u : user)
  : user_table * option db_error :=
  match tbl !! rid with
  | Some _ => (tbl, Some (RecordExists rid))
  | None =>
      if negb (is_email (email u)) then (tbl, Some (FieldAssert "email"))
      else if email_indexed tbl (email u) then (tbl, Some DuplicateEmail)
      else (<[rid := u]> tbl, None)
  end.

Definition hours (n : Z) : Z := (n * 3600)%Z.
Definition days (n : Z) : Z := (n * 86400)%Z.

(** [DURATION FOR TOKEN ..., FOR SESSION ...], in seconds. *)
Record access := {
  token_duration : Z;
  session_duration : Z;
}.

(** [DEFINE ACCESS user_access ... DURATION FOR TOKEN 24h, FOR SESSION 7d]
    (Step 1.2, line 81). *)
Definition user_access : access :=
  {| token_duration := hours 24; session_duration := days 7 |}.

(** A token issued at [now] under access method [a] expires
    [token_duration a] later. *)
Definition issue (a : access) (rid : string) (now : Z) : claims :=
  {| ID := rid; iat := now; exp := (now + token_duration a)%Z |}.

Inductive token_error := Expired.

(** The expiry check the database makes on a presented token: the token
    is refused as expired once the check time is past [exp], and is
    still accepted at [exp] itself ("expired if now > expiry", spec
    section 4.3). The check is the database's, not the repository's. *)
Definition validate_at (c : claims) (now : Z) : claims + token_error :=
  if (exp c <? now)%Z then inr Expired else inl c.

(** The SIGNUP clause of [user_access]: the row it creates. *)
Definition signup_row `{!Builtins} (e p n salt : string) (now : Z) : user :=
  {| email := e; name := n; password := argon2_generate salt p;
     role := "user"; created := now; updated := now |}.

(** What [db.signup] and [db.signin] hand back on success: the token and
    the record it was issued for. *)
Record auth_result := {
  result_token : string;
  result_id : string;
  result_row : user;
}.

(** [db.signup({... "AC": "user_access", email, password, name})]: runs the
    SIGNUP clause with a generated record id [rid] and salt [salt] and
    issues a token for the new record. When the clause fails, for
    whatever reason (the unique index, the ASSERT of [email]), the call
    reports the one failure of the record access. *)
Definition db_signup `{!Builtins} (tbl : user_table) (e p n : string)
    (rid salt : string) (now : Z) : user_table * (db_error + auth_result) :=
  let row := signup_row e p n salt now in
  match create_user tbl rid row with
  | (tbl', None) =>
      (tbl', inr {| result_token := jwt_sign (issue user_access rid now);
                    result_id := rid; result_row := row |})
  | (tbl', Some _) => (tbl', inl SignupQueryFailed)
  end.

(** The SIGNIN clause: [SELECT * FROM user WHERE email = $email AND
    crypto::argon2::compare(password, $password)]. *)
Definition signin_rows `{!Builtins} (tbl : user_table) (e p : string)
  : list (string * user) :=
  List.filter (λ kv, bool_decide (email kv.2 = e) && argon2_compare (password kv.2) p)
              (map_to_list tbl).

(** [db.signin(...)]: a token for the selected record, or no record. *)
Definition db_signin `{!Builtins} (tbl : user_table) (e p : string) (now : Z)
  : db_error + auth_result :=
  match signin_rows tbl e p with
  | (rid, row) :: _ =>
      inr {| result_token := jwt_sign (issue user_access rid now);
             result_id := rid; result_row := row |}
  | [] => inl NoRecord
  end.

(** [$auth]: the record the connection is authenticated as. *)
Record auth := {
  auth_id : string;
  auth_role : string;
}.

(** Step 1.5, lines 117-130: [PERMISSIONS FOR select, create, update, delete
    WHERE user_id = $auth.id OR $auth.role = "admin"], the same clause on
    [notebook], [source] and [note]; [owner] is the row's [user_id]
    ([option<record<user>>], Step 1.3). *)
Definition permitted (a : auth) (owner : option string) : bool :=
  bool_decide (owner = Some (auth_id a)) || bool_decide (auth_role a = "admin").

(** Step 1.4, lines 101-105: the default administrator. *)
Definition admin_id : string := "user:admin".

Definition admin_row `{!Builtins} (salt : string) (now : Z) : user :=
  {| email := "admin@localhost";
     password := argon2_generate salt "change-me-immediately";
     name := "System Administrator";
     role := "admin"; created := now; updated := now |}.

End Surreal.

(** ** The API layer (MULTI_USER_IMPLEMENTATION_PLAN.md, Phase 2) *)

Module Api.
Import Json.

(** *** The pydantic models of api/routers/auth.py (lines 151-164) *)

Module SignupRequest.
Record t := { email : string; password : string; name : string }.
End SignupRequest.

Module SigninRequest.
Record t := { email : string; password : string }.
End SigninRequest.

Module TokenResponse.
Record t := { token : string; user_id : string; email : string; name : string }.

(** The body FastAPI sends for [response_model=TokenResponse]: one member
    per declared field, in declaration order. *)
Definition body (r : t) : list (string * json) :=
  [("token", JStr (token r)); ("user_id", JStr (user_id r));
   ("email", JStr (email r)); ("name", JStr (name r))].
End TokenResponse.

(** The member names of a JSON object. *)
Definition keys (o : list (string * json)) : list string := o.*1.

(** [AuthResponse] of frontend/src/lib/types/auth.ts (lines 27-33): the
    members the client requires of a signup or signin response. *)
Definition AuthResponse : list string :=
  ["token"; "user_id"; "email"; "name"; "role"].

(** [POST /signup] (lines 166-182). A failure of [db.signup] is not caught:
    the endpoint fails with it. *)
Definition signup `{!Surreal.Builtins} (tbl : Surreal.user_table)
    (request : SignupRequest.t) (rid salt : string) (now : Z)
  : Surreal.user_table * (Surreal.db_error + TokenResponse.t) :=
  match Surreal.db_signup tbl (SignupRequest.email request)
          (SignupRequest.password request) (SignupRequest.name request)
          rid salt now with
  | (tbl', inr result) =>
      (tbl', inr {| TokenResponse.token := Surreal.result_token result;
                    TokenResponse.user_id := Surreal.result_id result;
                    TokenResponse.email := SignupRequest.email request;
                    TokenResponse.name := SignupRequest.name request |})
  | (tbl', inl err) => (tbl', inl err)
  end.

(** [POST /signin] (lines 184-199); [result.get("name", "")] is the name of
    the selected row. *)
Definition signin `{!Surreal.Builtins} (tbl : Surreal.user_table)
    (request : SigninRequest.t) (now : Z)
  : Surreal.db_error + TokenResponse.t :=
  match Surreal.db_signin tbl (SigninRequest.email request)
          (SigninRequest.password request) now with
  | inr result =>
      inr {| TokenResponse.token := Surreal.result_token result;
             TokenResponse.user_id := Surreal.result_id result;
             TokenResponse.email := SigninRequest.email request;
             TokenResponse.name := Surreal.name (Surreal.result_row result) |}
  | inl err => inl err
  end.

(** *** [JWTAuthMiddleware] of api/auth.py (lines 205-237) *)

(** The PyJWT calls. [jwt_decode] is
    [jwt.decode(token, options={"verify_signature": False})]: the payload
    of a token whose structure parses, [None] when decoding raises.
    [jwt_verifies secret token] is the signature check against a secret;
    the repository's code never calls it. *)
Class JwtLib := {
  jwt_decode : string → option (gmap string json);
  jwt_verifies : string → string → bool;
}.

(** [request.state]. *)
Record State := {
  state_user_id : option json;
  state_token : option string;
}.

(** The parts of a Starlette request the middleware reads; header names
    are lower-case, as ASGI delivers them. *)
Record Request := {
  path : string;
  headers : list (string * string);
  state : State;
}.

(** [request.headers.get(key)]: case-insensitive, first match. *)
Definition headers_get (h : list (string * string)) (key : string) : option string :=
  snd <$> List.find (λ kv, bool_decide (kv.1 = Text.lower key)) h.

Record JWTAuthMiddleware := { excluded_paths : list string }.

(** [__init__]: [excluded_paths or [...]]. *)
Definition init (excluded : option (list string)) : JWTAuthMiddleware :=
  {| excluded_paths :=
       match excluded with
       | Some (p :: ps) => p :: ps
       | _ => ["/"; "/health"; "/docs"; "/openapi.json"; "/redoc";
               "/api/auth/signup"; "/api/auth/signin"; "/api/auth/status"]
       end |}.

(** What [dispatch] does with a request: hands it to the handler
    ([call_next]) or answers itself. (The handler runs inside the [try]
    of [dispatch]; what it answers or raises is its own and is not
    modelled.) *)
Inductive Response :=
  | CallNext (request : Request)
  | JSONResponse (status_code : Z) (detail : string).

(** [auth_header.split(" ")[1]]. *)
Definition bearer_token (auth_header : string) : string :=
  nth 1 (Text.split " " auth_header) "".

(** [dispatch] (lines 213-237). *)
Definition dispatch `{!JwtLib} (self : JWTAuthMiddleware) (request : Request) : Response :=
  if bool_decide (path request ∈ excluded_paths self) then CallNext request
  else
    match headers_get (headers request) "Authorization" with
    | None => JSONResponse 401 "Unauthorized"
    | Some auth_header =>
        if negb (Text.startswith "Bearer " auth_header)
        then JSONResponse 401 "Unauthorized"
        else
          let token := bearer_token auth_header in
          match jwt_decode token with
          | None => JSONResponse 401 "Invalid token"
          | Some payload =>
              match payload !! "ID" with
              | Some user_id =>
                  if truthy user_id then
                    CallNext {| path := path request; headers := headers request;
                                state := {| state_user_id := Some user_id;
                                            state_token := Some token |} |}
                  else JSONResponse 401 "Invalid token"
              | None => JSONResponse 401 "Invalid token"
              end
          end
    end.

(** Whether the handler ran. *)
Definition invokes_handler (r : Response) : bool :=
  match r with CallNext _ => true | JSONResponse _ _ => false end.

(** *** [Notebook] of open_notebook/domain/notebook.py (lines 243-253) *)

Record Notebook := {
  name : string;
  description : string;
  archived : option bool;
  user_id : option string;
}.

(** The notebook table, keyed by record id. *)
Abbreviation notebook_table := (gmap string Notebook).

(** [ObjectModel.create] is not in the sources: it saves the object as a
    new record, here under the generated id [rid]. *)
Definition ObjectModel_create (self : Notebook) (rid : string) (tbl : notebook_table)
  : notebook_table * Notebook :=
  (<[rid := self]> tbl, self).

(** [Notebook.create(self, user_id)]: [self.user_id = user_id], then
    [super().create()]. *)
Definition create (self : Notebook) (caller : string) (rid : string) (tbl : notebook_table)
  : notebook_table * Notebook :=
  let self' := {| name := name self; description := description self;
                  archived := archived self; user_id := Some caller |} in
  ObjectModel_create self' rid tbl.

End Api.

(** ** Tenancy enforcement and start-up, over the schema above *)

Module Core.
Import Surreal.

(** *** Tenancy enforcement *)

(** An owned resource type: a row with an optional owner reference
    (the [user_id] field of Step 1.3). *)
Class Owned (R : Type) := owner : R → option string.

#[global] Instance notebook_owned : Owned Api.Notebook := Api.user_id.

(** The errors the spec names for the tenancy layer. *)
Inductive tenancy_error := Forbidden | NotFound.

(** The answer of the database to one statement: the rows of its result,
    or an error. *)
Inductive answer (R : Type) :=
  | Rows (rows : list R)
  | Refused (e : tenancy_error).
Arguments Rows {R} rows.
Arguments Refused {R} e.

Section Tenancy.
Context {R : Type} `{!Owned R}.

(** List: the rows a SELECT returns under the permission clause of the
    table, that is the rows with [owner = caller.id], or every row for
    an administrator. *)
Definition list_resources (caller : auth) (tbl : gmap string R) : gmap string R :=
  filter (λ kv, permitted caller (owner kv.2) = true) tbl.

(** Read of one record under the same clause: a SELECT of the record
    returns it only if the clause holds. *)
Definition read (caller : auth) (rid : string) (tbl : gmap string R) : option R :=
  match tbl !! rid with
  | Some r => if permitted caller (owner r) then Some r else None
  | None => None
  end.

(** [UPDATE <rid> ...] under the permission clause of the table (lines
    117-130: the clause stands FOR select, create, update, delete). The
    database evaluates the clause on the stored record and again on the
    record as changed; where it does not hold the record is skipped: the
    table is left as it was and the result is empty, and no error is
    raised. A record that does not exist gives the empty result too. *)
Definition update (caller : auth) (rid : string) (change : R → R) (tbl : gmap string R)
  : gmap string R * answer R :=
  match tbl !! rid with
  | None => (tbl, Rows [])
  | Some r =>
      if permitted caller (owner r) && permitted caller (owner (change r))
      then (<[rid := change r]> tbl, Rows [change r])
      else (tbl, Rows [])
  end.

(** [DELETE <rid>] under the same clause, evaluated on the stored record:
    the record is removed where the clause holds and skipped where it
    does not. The result of a DELETE is empty either way, and no error
    is raised. *)
Definition delete_resource (caller : auth) (rid : string) (tbl : gmap string R)
  : gmap string R * answer R :=
  match tbl !! rid with
  | None => (tbl, Rows [])
  | Some r =>
      if permitted caller (owner r) then (delete rid tbl, Rows [])
      else (tbl, Rows [])
  end.

End Tenancy.

(** *** Schema migration engine and bootstrap sequencer *)

(** The identities with role [admin]. *)
Definition admins (tbl : user_table) : user_table :=
  filter (λ kv, role kv.2 = "admin") tbl.

Definition admin_count (tbl : user_table) : nat := size (admins tbl).

Definition has_admin (tbl : user_table) : bool :=
  negb (bool_decide (admins tbl = ∅)).

Section Bootstrap.
Context `{!Builtins}.
(** Whatever is persisted besides the user table (other tables, the
    schema definitions). *)
Context {Rest : Type}.

Record contents := {
  users : user_table;
  rest : Rest;
}.

(** The backing store: the persisted current schema version and the data. *)
Record persisted := {
  schema_version : nat;
  data : contents;
}.

(** A change-set is executed as one atomic unit: it yields the new
    contents or fails and changes nothing. *)
Definition change_set := contents → option contents.

(** Modelled from the spec: a migration record (section 3). The static
    list of migrations has no gaps: the record at position [k] (from 0)
    has version [k + 1]. *)
Record migration := {
  forward : change_set;
  backward : option change_set;
}.

Record MigrationError := { failed_version : nat }.

(** Modelled from the spec: pending migrations are applied in ascending
    order; the stored version advances after each successful change-set,
    and a failure stops the engine without advancing it (section 4.1). *)
Fixpoint apply_pending (pending : list migration) (s : persisted)
  : persisted * option MigrationError :=
  match pending with
  | [] => (s, None)
  | m :: pending' =>
      match forward m (data s) with
      | Some c =>
          apply_pending pending'
            {| schema_version := S (schema_version s); data := c |}
      | None => (s, Some {| failed_version := S (schema_version s) |})
      end
  end.

(** Modelled from the spec: [applyForward(toVersion?)] (section 4.1),
    starting one past the current version; no target means the latest. *)
Definition applyForward (migrations : list migration) (toVersion : option nat)
    (s : persisted) : persisted * option MigrationError :=
  let upto := match toVersion with
              | Some v => take v migrations
              | None => migrations
              end in
  apply_pending (drop (schema_version s) upto) s.

Inductive startup_error :=
  | Fatal (e : MigrationError)
  | CredentialStore (e : db_error).

(** Modelled from the spec: the Bootstrap Sequencer (section 4.6), whose
    code (the API start-up) is not in the sources. Step 1 migrates to the
    latest version and aborts on a migration error; step 2 looks for an
    identity with role [admin] and, if there is none, creates the default
    administrator of Step 1.4 of the plan ([user:admin], with its
    password hashed under [salt]). *)
Definition bootstrap (migrations : list migration) (salt : string) (now : Z)
    (s : persisted) : persisted * option startup_error :=
  match applyForward migrations None s with
  | (s1, Some e) => (s1, Some (Fatal e))
  | (s1, None) =>
      if has_admin (users (data s1)) then (s1, None)
      else
        match create_user (users (data s1)) admin_id (admin_row salt now) with
        | (tbl, None) =>
            ({| schema_version := schema_version s1;
                data := {| users := tbl; rest := rest (data s1) |} |}, None)
        | (_, Some e) => (s1, Some (CredentialStore e))
        end
  end.

End Bootstrap.

Arguments contents : clear implicits.
Arguments persisted : clear implicits.
Arguments migration : clear implicits.

End Core.

(** ** Stand-ins for evaluating the code on concrete inputs

    The database functions and the JWT library are arguments of the
    code above, and every general theorem below holds for all of them.
    The instances here are simple stand-ins, used only where a
    statement is evaluated at one concrete input. *)

Module Sample.
Import Json.

(** A token of the stand-in is [header.subject.mac]. *)
Definition decode (token : string) : option (gmap string json) :=
  match Text.split "." token with
  | [_; subject; _] => Some {[ "ID" := JStr subject ]}
  | _ => None
  end.

Definition verifies (secret token : string) : bool :=
  match Text.split "." token with
  | [_; subject; mac] => bool_decide (mac = secret ++ subject)
  | _ => false
  end.

#[export] Instance jwt : Api.JwtLib :=
  {| Api.jwt_decode := decode; Api.jwt_verifies := verifies |}.

Fixpoint has_at (s : string) : bool :=
  match s with
  | EmptyString => false
  | String c s' => Ascii.eqb c "@" || has_at s'
  end.

Definition generate (salt plaintext : string) : string := salt ++ "$" ++ plaintext.

Definition compare (digest plaintext : string) : bool :=
  match Text.split "$" digest with
  | [_; p] => bool_decide (p = plaintext)
  | _ => false
  end.

Definition sign (c : Surreal.claims) : string :=
  "jwt." ++ Surreal.ID c ++ ".mac".

#[export] Instance builtins : Surreal.Builtins :=
  {| Surreal.is_email := has_at; Surreal.argon2_generate := generate;
     Surreal.argon2_compare := compare; Surreal.jwt_sign := sign |}.

(** Two users, an administrator, and a notebook table with one notebook
    of each user. *)
Definition ann : Surreal.auth :=
  {| Surreal.auth_id := "user:ann"; Surreal.auth_role := "user" |}.
Definition bob : Surreal.auth :=
  {| Surreal.auth_id := "user:bob"; Surreal.auth_role := "user" |}.
Definition root : Surreal.auth :=
  {| Surreal.auth_id := "user:admin"; Surreal.auth_role := "admin" |}.

Definition plans : Api.Notebook :=
  {| Api.name := "Plans"; Api.description := ""; Api.archived := None;
     Api.user_id := Some "user:ann" |}.
Definition recipes : Api.Notebook :=
  {| Api.name := "Recipes"; Api.description := ""; Api.archived := None;
     Api.user_id := Some "user:bob" |}.

Definition notebooks : gmap string Api.Notebook :=
  <["notebook:1" := plans]> (<["notebook:2" := recipes]> ∅).

(** A request for a protected path that presents a token whose
    signature was not made with the signing secret. *)
Definition secret : string := "s3cret".
Definition forged_token : string := "jwt.user:bob.forged".

Definition forged_request : Api.Request :=
  {| Api.path := "/api/notebooks";
     Api.headers := [("authorization", "Bearer " ++ forged_token)];
     Api.state := {| Api.state_user_id := None; Api.state_token := None |} |}.

(** A user table holding Ann's account, and a signup request whose
    e-mail differs from hers in letter case only. *)
Definition ann_row : Surreal.user :=
  Surreal.signup_row "ann@x.com" "password123" "Ann" "salt1" 0.

Definition one_user : gmap string Surreal.user := {[ "user:ann" := ann_row ]}.

Definition ann_request : Api.SignupRequest.t :=
  {| Api.SignupRequest.email := "ann@x.com";
     Api.SignupRequest.password := "password123";
     Api.SignupRequest.name := "Ann" |}.

Definition ann_again : Api.SignupRequest.t :=
  {| Api.SignupRequest.email := "Ann@x.com";
     Api.SignupRequest.password := "password456";
     Api.SignupRequest.name := "Ann Again" |}.

(** Stores for the bootstrap sequencer: a fresh one, and one at the latest
    version in which an administrator has promoted a second account. *)
Definition migrations : list (Core.migration unit) :=
  [ {| Core.forward := Some; Core.backward := None |} ].

Definition fresh_store : Core.persisted unit :=
  {| Core.schema_version := 0;
     Core.data := {| Core.users := ∅; Core.rest := () |} |}.

Definition promoted_row : Surreal.user :=
  {| Surreal.email := "ann@x.com"; Surreal.password := generate "salt1" "password123";
     Surreal.name := "Ann"; Surreal.role := "admin";
     Surreal.created := 0; Surreal.updated := 9 |}.

Definition two_admins : Core.persisted unit :=
  {| Core.schema_version := 1;
     Core.data :=
       {| Core.users := <[Surreal.admin_id := Surreal.admin_row "salt0" 0]>
                          (<["user:ann" := promoted_row]> ∅);
          Core.rest := () |} |}.

End Sample.

(** ** The hook, the form's render logic and the runtime configuration *)

Module Hooks.
Import Text Frontend.

(** [sessionStorage]: string keys to string values. *)
Abbreviation storage := (gmap string string).

Definition redirect_key : string := "redirectAfterLogin".

(** What a run of [ProtectedRoute]'s effect leaves in [sessionStorage]:
    each [sessionStorage.setItem('redirectAfterLogin', pathname)] in
    program order. *)
Fixpoint storage_after (effs : list route_effect) (s : storage) : storage :=
  match effs with
  | [] => s
  | StoreRedirect pathname :: effs' =>
      storage_after effs' (<[redirect_key := pathname]> s)
  | _ :: effs' => storage_after effs' s
  end.

(** [handleLogin] of lib/hooks/use-auth.ts (lines 44-57). [login] is the
    outcome of the store's [login(credentials)]; the result is the
    storage afterwards, the navigation, and what the call returns. *)
Definition handleLogin (login : awaited bool) (s : storage)
  : storage * list route_effect * awaited bool :=
  match login with
  | Threw => (s, [], Threw)
  | Returned false => (s, [], Returned false)
  | Returned true =>
      match s !! redirect_key with
      | Some redirectPath =>
          if bool_decide (redirectPath = "")
          then (s, [RouterPush "/notebooks"], Returned true)
          else (delete redirect_key s, [RouterPush redirectPath], Returned true)
      | None => (s, [RouterPush "/notebooks"], Returned true)
      end
  end.

(** [handleSignup] (lines 59-65): the navigation and the returned value. *)
Definition handleSignup (signup : awaited bool) : list route_effect * awaited bool :=
  match signup with
  | Returned true => ([RouterPush "/notebooks"], Returned true)
  | Returned false => ([], Returned false)
  | Threw => ([], Threw)
  end.

(** The [useEffect] of [useAuth] (lines 24-42). [required] is the outcome
    of [checkAuthRequired()]; a rejection is not handled and nothing
    follows it. *)
Definition useAuth_effect (st : auth_store) (required : awaited bool) : list route_effect :=
  if hasHydrated st then
    match authRequired st with
    | None =>
        CallCheckAuthRequired ::
        match required with
        | Returned true => [CallCheckAuth]
        | _ => []
        end
    | Some true => [CallCheckAuth]
    | Some false => []
    end
  else [].

(** The [isLoading] that [useAuth] returns (line 75). *)
Definition useAuth_isLoading (isLoading : bool) (st : auth_store) : bool :=
  isLoading || negb (hasHydrated st).

(** [SignupForm]: the [disabled] attribute of the submit button
    (SignupForm.tsx, line 122). *)
Definition submit_disabled (isLoading : bool) (st : form_state) : bool :=
  isLoading || negb (js_truthy (trim (name st)))
  || negb (js_truthy (trim (email st)))
  || negb (js_truthy (trim (password st)))
  || negb (js_truthy (trim (confirmPassword st))).

(** [localError || error] (line 55): the first operand unless it is
    [null] or empty. *)
Definition displayError (localError error : option string) : option string :=
  match localError with
  | Some e => if bool_decide (e = "") then error else Some e
  | None => error
  end.

(** The run of [handleSubmit] when every check passes. *)
Definition signup_run (st : form_state) (out : signup_outcome) : list submit_effect :=
  [PreventDefault; SetLocalError None;
   Signup {| cred_name := name st; cred_email := email st;
             cred_password := password st |}]
  ++ match out with Resolves _ => [] | Rejects => [ConsoleError] end.

(** The five validation messages of [handleSubmit]. *)
Definition validation_messages : list string :=
  ["Name is required"; "Email is required"; "Password is required";
   "Password must be at least 8 characters"; "Passwords do not match"].

(** What [handleSubmit] sees of [useAuth().signup], which is
    [handleSignup] over the store's signup. *)
Definition outcome_of (r : awaited bool) : signup_outcome :=
  match r with Returned b => Resolves b | Threw => Rejects end.

(** A submit of the form through the hook: the effects of
    [handleSubmit], and the navigation that [handleSignup] does when
    the form calls it. *)
Definition submit_through_hook (st : form_state) (store_signup : awaited bool)
  : list submit_effect * list route_effect :=
  let tr := handleSubmit st (outcome_of (handleSignup store_signup).2) in
  (tr, if invokes_signup tr then (handleSignup store_signup).1 else []).

(** The fields pass every check of [handleSubmit]. *)
Definition form_valid (st : form_state) : Prop :=
  ¬ blank (name st) ∧ ¬ blank (email st) ∧ ¬ blank (password st)
  ∧ (8 ≤ List.length (password st))%nat
  ∧ password st = confirmPassword st.

End Hooks.

Module Config.
Import Json.

(** [process.env]. *)
Abbreviation environment := (gmap string string).

(** [a || b] on [string | undefined]: [a] unless it is undefined or
    empty. *)
Definition js_or (a b : option string) : option string :=
  match a with
  | Some v => if bool_decide (v = "") then b else Some v
  | None => b
  end.

(** The parts of a [NextRequest]; the handler reads none of them. *)
Record NextRequest := { url : string; request_headers : list (string * string) }.

(** [GET] of app/config-endpoint/route.ts (lines 16-32): the body of the
    JSON response. *)
Definition GET (env : environment) (request : NextRequest) : list (string * json) :=
  let envApiUrl := js_or (env !! "API_URL") (env !! "NEXT_PUBLIC_API_URL") in
  match envApiUrl with
  | Some v => if bool_decide (v = "") then [("apiUrl", JStr "")] else [("apiUrl", JStr v)]
  | None => [("apiUrl", JStr "")]
  end.

(** A variable that is not set, or set to the empty string. *)
Definition unset_or_empty (v : option string) : Prop := v = None ∨ v = Some "".

End Config.

(** ** The auth store of the plan (Step 3.1, lines 259-326) *)

Module PlanStore.
Import Json.

(** [data.key] on a parsed JSON object: the member, or [undefined]
    ([None]); of members with the same name the last one counts. *)
Definition member (key : string) (data : list (string * json)) : option json :=
  snd <$> List.find (λ kv, bool_decide (kv.1 = key)) (rev data).

(** [interface User]. *)
Record User := {
  id : option json;
  email : option json;
  name : option json;
}.

(** The data fields of [AuthState]. *)
Record AuthState := {
  user : option User;
  token : option json;
  isAuthenticated : bool;
}.

(** The initial state of the store (lines 279-281). *)
Definition initial : AuthState :=
  {| user := None; token := None; isAuthenticated := false |}.

(** What [fetch] followed by [response.json()] gives: a network failure,
    or an answer with its [ok] flag and its parsed body ([None] when the
    body is not JSON). *)
Inductive fetched :=
  | NetworkError
  | Answer (ok : bool) (body : option json).

(** The members of a parsed value as property reads see them: those of
    an object; none for a number, a string, a boolean or an array (the
    names read here are not properties of these); reading a property
    of [null] throws. *)
Definition members (data : json) : option (list (string * json)) :=
  match data with
  | JObj l => Some l
  | JNull => None
  | _ => Some []
  end.

(** [signup] (lines 283-299) and [signin] (lines 301-317) treat the
    answer in the same way: the state afterwards, and whether the call
    resolved ([true]) or threw. *)
Definition authenticate (st : AuthState) (r : fetched) : AuthState * bool :=
  match r with
  | NetworkError => (st, false)
  | Answer false _ => (st, false)
  | Answer true None => (st, false)
  | Answer true (Some parsed) =>
      match members parsed with
      | None => (st, false)
      | Some data =>
          ({| user := Some {| id := member "user_id" data;
                              email := member "email" data;
                              name := member "name" data |};
              token := member "token" data;
              isAuthenticated := true |}, true)
      end
  end.

(** [logout] (lines 319-321). *)
Definition logout (st : AuthState) : AuthState :=
  {| user := None; token := None; isAuthenticated := false |}.

(** The calls a page can make on the store. *)
Inductive call :=
  | CallSignup (r : fetched)
  | CallSignin (r : fetched)
  | CallLogout.

Definition step (st : AuthState) (c : call) : AuthState :=
  match c with
  | CallSignup r | CallSignin r => (authenticate st r).1
  | CallLogout => logout st
  end.

(** The state after a sequence of calls. *)
Definition run (calls : list call) (st : AuthState) : AuthState :=
  fold_left step calls st.

(** [handleSubmit] of the plan's forms (lines 343-351 and 373-381):
    navigate to [/notebooks] when the store call resolved, swallow the
    error otherwise. *)
Definition plan_handleSubmit (st : AuthState) (r : fetched)
  : AuthState * list Frontend.route_effect :=
  let '(st', resolved) := authenticate st r in
  (st', if resolved then [Frontend.RouterPush "/notebooks"] else []).

(** The flag and the data of the store agree: authenticated exactly when
    a user is held, and no token is held when not authenticated. *)
Definition consistent (st : AuthState) : Prop :=
  (isAuthenticated st = true ↔ is_Some (user st))
  ∧ (isAuthenticated st = false → token st = None).

End PlanStore.

(** ** The data migration of Step 1.4 (lines 107-111) *)

Module DataMigration.
Import Api.

(** [SET user_id = user:admin] on one row. *)
Definition assign_admin (r : Notebook) : Notebook :=
  {| name := name r; description := description r; archived := archived r;
     user_id := Some Surreal.admin_id |}.

(** [UPDATE notebook SET user_id = user:admin WHERE user_id = NONE]. *)
Definition assign_orphans (tbl : notebook_table) : notebook_table :=
  (λ r, match user_id r with None => assign_admin r | Some _ => r end) <$> tbl.

End DataMigration.

(** Text without a space character. *)
Fixpoint no_space (s : string) : bool :=
  match s with
  | EmptyString => true
  | String c s' => negb (Ascii.eqb c " ") && no_space s'
  end.

(** * Theorems *)

(** Closes [x ∉ [a; b; ...]] for literals that all differ from [x]. *)
Ltac not_in_literal :=
  let Hin := fresh "Hin" in
  let Heq := fresh "Heq" in
  simpl; intros Hin;
  repeat (apply elem_of_cons in Hin as [Heq | Hin]; [discriminate Heq|]);
  by apply elem_of_nil in Hin.

(** ** The React components *)

Section FrontendFacts.
Import Text Frontend.

Lemma blank_not_truthy (s : jsstring) : blank s → js_truthy (trim s) = false.
Proof. unfold blank. intros ->. reflexivity. Qed.

Lemma stops_with_no_signup (msg : string) :
  invokes_signup (stops_with msg) = false.
Proof. reflexivity. Qed.

(** C10: when the password and its confirmation differ, or the password
    has fewer than 8 characters, or name, email or password is blank,
    [handleSubmit] sets a local error message and returns: the run
    consists of [preventDefault], the reset of the error and one
    [setLocalError] with a message, and the signup operation is not
    invoked, whatever it would have answered. *)
Theorem signup_form_rejects_invalid (st : form_state) (out : signup_outcome) :
  password st ≠ confirmPassword st
  ∨ (List.length (password st) < 8)%nat
  ∨ blank (name st) ∨ blank (email st) ∨ blank (password st) →
  (∃ msg, handleSubmit st out = stops_with msg
          ∧ localError_after None (handleSubmit st out) = Some msg)
  ∧ invokes_signup (handleSubmit st out) = false.
Proof.
  intros Hbad.
  assert (∃ msg, handleSubmit st out = stops_with msg) as [msg Hrun].
  { unfold handleSubmit, stops_with.
    destruct (js_truthy (trim (name st))) eqn:Hn; simpl; [|eauto].
    destruct (js_truthy (trim (email st))) eqn:He; simpl; [|eauto].
    destruct (js_truthy (trim (password st))) eqn:Hp; simpl; [|eauto].
    destruct (N.ltb_spec (N.of_nat (List.length (password st))) 8) as [|Hlen];
      [eauto|].
    case_bool_decide as Heq; simpl; [|eauto].
    exfalso.
    destruct Hbad as [Hne | [Hshort | [Hb | [Hb | Hb]]]].
    - contradiction.
    - lia.
    - apply blank_not_truthy in Hb. congruence.
    - apply blank_not_truthy in Hb. congruence.
    - apply blank_not_truthy in Hb. congruence. }
  rewrite Hrun. split; [exists msg; split; reflexivity | apply stops_with_no_signup].
Qed.

Lemma signup_form_rejects_invalid_witness :
  (∃ msg, handleSubmit {| name := js "Ann"; email := js "ann@x.com";
                          password := js "password123";
                          confirmPassword := js "password124" |} Rejects
          = stops_with msg
          ∧ localError_after None
              (handleSubmit {| name := js "Ann"; email := js "ann@x.com";
                               password := js "password123";
                               confirmPassword := js "password124" |} Rejects)
            = Some msg)
  ∧ invokes_signup
      (handleSubmit {| name := js "Ann"; email := js "ann@x.com";
                       password := js "password123";
                       confirmPassword := js "password124" |} Rejects) = false.
Proof.
  apply (signup_form_rejects_invalid
           {| name := js "Ann"; email := js "ann@x.com";
              password := js "password123";
              confirmPassword := js "password124" |} Rejects).
  left. simpl. discriminate.
Defined.

(** A form that passes every check does call the signup operation. *)
Example signup_form_accepts_valid :
  handleSubmit {| name := js "Ann"; email := js "ann@x.com";
                  password := js "password123";
                  confirmPassword := js "password123" |} (Resolves true)
  = [PreventDefault; SetLocalError None;
     Signup {| cred_name := js "Ann"; cred_email := js "ann@x.com";
               cred_password := js "password123" |}].
Proof. reflexivity. Qed.

(** C9: [ProtectedRoute] renders its children only if [authRequired] is
    [false] or [isAuthenticated] is [true]; in every other state it
    renders the loading indicator. While the requirement is unknown
    ([authRequired] is [null]) it renders the loading indicator, and when
    [checkAuthRequired] throws the effect goes on as if authentication
    were required: an unauthenticated visitor is redirected to
    [/login]. *)
Theorem protected_route_fails_closed (st : auth_store) (pathname : string) (valid : bool) :
  (ProtectedRoute st = Children →
   authRequired st = Some false ∨ isAuthenticated st = true)
  ∧ (¬ (authRequired st = Some false ∨ isAuthenticated st = true) →
     ProtectedRoute st = LoadingSpinner)
  ∧ (hasHydrated st = true → authRequired st = None →
     ProtectedRoute st = LoadingSpinner
     ∧ (isAuthenticated st = false →
        checkAuthentication st pathname Threw valid
        = [CallCheckAuthRequired; LogError; StoreRedirect pathname;
           RouterPush "/login"])
     ∧ (isAuthenticated st = true →
        checkAuthentication st pathname Threw valid
        = CallCheckAuthRequired :: LogError :: CallCheckAuth ::
          if valid then [] else redirect_to_login pathname)).
Proof.
  destruct st as [auth hyd req]; unfold ProtectedRoute, checkAuthentication,
    check_credentials; simpl.
  split; [|split].
  - destruct hyd, req as [[|]|], auth; simpl; intros H;
      first [discriminate H | by left | by right].
  - intros Hno. destruct req as [[|]|], auth, hyd; simpl; try reflexivity;
      exfalso; apply Hno; first [by left | by right].
  - intros -> ->. simpl. split; [reflexivity|].
    split; intros ->; reflexivity.
Qed.

Lemma protected_route_fails_closed_witness :
  ProtectedRoute {| isAuthenticated := false; hasHydrated := true;
                    authRequired := None |} = LoadingSpinner
  ∧ checkAuthentication {| isAuthenticated := false; hasHydrated := true;
                           authRequired := None |} "/notebooks" Threw true
    = [CallCheckAuthRequired; LogError; StoreRedirect "/notebooks";
       RouterPush "/login"].
Proof.
  destruct (protected_route_fails_closed
              {| isAuthenticated := false; hasHydrated := true;
                 authRequired := None |} "/notebooks" true)
    as (_ & _ & Hnull).
  destruct (Hnull eq_refl eq_refl) as (Hview & Hout & _).
  split; [exact Hview | exact (Hout eq_refl)].
Defined.

End FrontendFacts.

(** ** Ownership and tenancy *)

Section OwnershipFacts.
Import Surreal Api Core.

(** C6: [Notebook.create] stores the record with [user_id] equal to the
    caller's id, whatever [user_id] the object built from the client's
    payload carried; the other fields are stored as given. *)
Theorem notebook_create_sets_owner (self : Notebook) (caller rid : string)
    (tbl : notebook_table) :
  ∃ stored, (create self caller rid tbl).1 !! rid = Some stored
            ∧ user_id stored = Some caller
            ∧ owner stored = Some caller
            ∧ name stored = name self
            ∧ description stored = description self
            ∧ archived stored = archived self
            ∧ (create self caller rid tbl).2 = stored.
Proof.
  unfold create, ObjectModel_create. simpl.
  eexists. split; [apply lookup_insert_eq|].
  repeat split.
Qed.

(** A forged owner in the payload is overwritten. *)
Example notebook_create_forged_owner :
  (create {| name := "Plans"; description := ""; archived := Some false;
             user_id := Some "user:admin" |} "user:bob" "notebook:1" ∅).1
  !! "notebook:1"
  = Some {| name := "Plans"; description := ""; archived := Some false;
            user_id := Some "user:bob" |}.
Proof. unfold create, ObjectModel_create. simpl. apply lookup_insert_eq. Qed.

Lemma permitted_owner (a : auth) : permitted a (Some (auth_id a)) = true.
Proof. unfold permitted. rewrite bool_decide_eq_true_2; done. Qed.

Lemma permitted_admin (a : auth) (o : option string) :
  auth_role a = "admin" → permitted a o = true.
Proof.
  intros Hrole. unfold permitted.
  rewrite (bool_decide_eq_true_2 (auth_role a = "admin")) by done.
  apply orb_true_r.
Qed.

Lemma permitted_other (a : auth) (o : string) :
  auth_role a = "user" → o ≠ auth_id a → permitted a (Some o) = false.
Proof.
  intros Hrole Hne. unfold permitted.
  rewrite !bool_decide_eq_false_2; [done| |].
  - rewrite Hrole. discriminate.
  - intros [= ?]. contradiction.
Qed.

Context {R : Type} `{!Owned R}.

Lemma list_resources_lookup (caller : auth) (tbl : gmap string R) (rid : string) :
  list_resources caller tbl !! rid = read caller rid tbl.
Proof.
  unfold list_resources, read.
  destruct (tbl !! rid) as [r|] eqn:Hr.
  - destruct (permitted caller (owner r)) eqn:Hp.
    + apply map_lookup_filter_Some. by split.
    + apply map_lookup_filter_None. right. intros r' Hr'. simpl.
      rewrite Hr in Hr'. injection Hr' as <-. congruence.
  - apply map_lookup_filter_None. by left.
Qed.

(** C1, as the code has it: for distinct users [A] and [B] with role
    [user] and a resource owned by [A]: the list and the read executed
    as [B] do not return it, and the update and the delete attempted by
    [B] change nothing and answer the empty result, without an error
    (the permission clause makes the database skip the record; nothing
    is refused as [Forbidden]); executed with an identity of role
    [admin], the list and the read return every stored resource (owned
    by [A], by [B] or by anyone), the update stores the change and
    answers the changed record, and the delete removes the record. *)
Theorem tenancy_isolation (A B adm : auth) (tbl : gmap string R)
    (rid : string) (r : R) (change : R → R) :
  auth_id A ≠ auth_id B →
  auth_role A = "user" → auth_role B = "user" → auth_role adm = "admin" →
  tbl !! rid = Some r → owner r = Some (auth_id A) →
  (list_resources B tbl !! rid = None
   ∧ read B rid tbl = None
   ∧ update B rid change tbl = (tbl, Rows [])
   ∧ delete_resource B rid tbl = (tbl, Rows []))
  ∧ (∀ rid' r', tbl !! rid' = Some r' →
       list_resources adm tbl !! rid' = Some r'
       ∧ read adm rid' tbl = Some r'
       ∧ update adm rid' change tbl
         = (<[rid' := change r']> tbl, Rows [change r'])
       ∧ delete_resource adm rid' tbl = (delete rid' tbl, Rows [])
       ∧ (delete_resource adm rid' tbl).1 !! rid' = None).
Proof.
  intros Hdistinct _ HroleB Hadm Hr Howner.
  assert (permitted B (owner r) = false) as HB.
  { rewrite Howner. by apply permitted_other. }
  split.
  - rewrite list_resources_lookup.
    unfold read, update, delete_resource. rewrite Hr, HB. done.
  - intros rid' r' Hr'.
    assert (∀ o, permitted adm o = true) as Hp
      by (intros o; by apply permitted_admin).
    rewrite list_resources_lookup.
    unfold read, update, delete_resource. rewrite Hr', !Hp. simpl.
    repeat split. apply lookup_delete_eq.
Qed.

End OwnershipFacts.

Lemma tenancy_isolation_witness :
  (Core.list_resources Sample.bob Sample.notebooks !! "notebook:1" = None
   ∧ Core.read Sample.bob "notebook:1" Sample.notebooks = None
   ∧ Core.update Sample.bob "notebook:1" id Sample.notebooks
     = (Sample.notebooks, Core.Rows [])
   ∧ Core.delete_resource Sample.bob "notebook:1" Sample.notebooks
     = (Sample.notebooks, Core.Rows []))
  ∧ (∀ rid' r', Sample.notebooks !! rid' = Some r' →
       Core.list_resources Sample.root Sample.notebooks !! rid' = Some r'
       ∧ Core.read Sample.root rid' Sample.notebooks = Some r'
       ∧ Core.update Sample.root rid' id Sample.notebooks
         = (<[rid' := id r']> Sample.notebooks, Core.Rows [id r'])
       ∧ Core.delete_resource Sample.root rid' Sample.notebooks
         = (delete rid' Sample.notebooks, Core.Rows [])
       ∧ (Core.delete_resource Sample.root rid' Sample.notebooks).1 !! rid' = None).
Proof.
  apply (tenancy_isolation Sample.ann Sample.bob Sample.root Sample.notebooks
           "notebook:1" Sample.plans id).
  - discriminate.
  - reflexivity.
  - reflexivity.
  - reflexivity.
  - apply lookup_insert_eq.
  - reflexivity.
Defined.

(** The claim of C1 fails at Bob's update and delete of Ann's notebook:
    the notebook is Ann's, Bob is another user without the role
    [admin], and both statements answer the empty result and change
    nothing; neither is refused with [Forbidden]. *)
Lemma update_by_other_user_is_skipped :
  Sample.notebooks !! "notebook:1" = Some Sample.plans
  ∧ Core.owner Sample.plans = Some (Surreal.auth_id Sample.ann)
  ∧ Core.update Sample.bob "notebook:1" id Sample.notebooks
    = (Sample.notebooks, Core.Rows [])
  ∧ Core.delete_resource Sample.bob "notebook:1" Sample.notebooks
    = (Sample.notebooks, Core.Rows [])
  ∧ (Core.update Sample.bob "notebook:1" id Sample.notebooks).2
    ≠ Core.Refused Core.Forbidden
  ∧ (Core.delete_resource Sample.bob "notebook:1" Sample.notebooks).2
    ≠ Core.Refused Core.Forbidden.
Proof.
  assert (Sample.notebooks !! "notebook:1" = Some Sample.plans) as Hplans
    by apply lookup_insert_eq.
  split; [exact Hplans|]. split; [reflexivity|].
  unfold Core.update, Core.delete_resource. rewrite Hplans. simpl.
  repeat split; discriminate.
Qed.

(** ** The authorization middleware *)

Section MiddlewareFacts.
Import Json Api.
Context `{!JwtLib}.

(** The request [dispatch] hands to the handler for a decoded token. *)
Lemma dispatch_bearer (self : JWTAuthMiddleware) (request : Request)
    (auth_header : string) :
  path request ∉ excluded_paths self →
  headers_get (headers request) "Authorization" = Some auth_header →
  Text.startswith "Bearer " auth_header = true →
  dispatch self request =
  match jwt_decode (bearer_token auth_header) with
  | None => JSONResponse 401 "Invalid token"
  | Some payload =>
      match payload !! "ID" with
      | Some user_id =>
          if truthy user_id then
            CallNext {| path := path request; headers := headers request;
                        state := {| state_user_id := Some user_id;
                                    state_token := Some (bearer_token auth_header) |} |}
          else JSONResponse 401 "Invalid token"
      | None => JSONResponse 401 "Invalid token"
      end
  end.
Proof.
  intros Hpath Hhdr Hpre. unfold dispatch.
  rewrite bool_decide_eq_false_2 by done.
  rewrite Hhdr, Hpre. reflexivity.
Qed.

(** A request for an excluded path passes through as it came, with no
    identity attached. *)
Lemma dispatch_excluded (self : JWTAuthMiddleware) (request : Request) :
  path request ∈ excluded_paths self → dispatch self request = CallNext request.
Proof.
  intros Hin. unfold dispatch. by rewrite bool_decide_eq_true_2.
Qed.

(** Without an [Authorization] header that starts with [Bearer ], a
    request for a protected path is answered with 401 "Unauthorized" and
    the handler is not invoked. *)
Lemma dispatch_requires_bearer (self : JWTAuthMiddleware) (request : Request) :
  path request ∉ excluded_paths self →
  (∀ auth_header, headers_get (headers request) "Authorization" = Some auth_header →
                  Text.startswith "Bearer " auth_header = false) →
  dispatch self request = JSONResponse 401 "Unauthorized".
Proof.
  intros Hpath Hhdr. unfold dispatch.
  rewrite bool_decide_eq_false_2 by done.
  destruct (headers_get (headers request) "Authorization") as [h|]; [|done].
  by rewrite (Hhdr h).
Qed.

(** A token that cannot be decoded is rejected without invoking the
    handler. *)
Lemma dispatch_rejects_undecodable (self : JWTAuthMiddleware) (request : Request)
    (auth_header : string) :
  path request ∉ excluded_paths self →
  headers_get (headers request) "Authorization" = Some auth_header →
  Text.startswith "Bearer " auth_header = true →
  jwt_decode (bearer_token auth_header) = None →
  dispatch self request = JSONResponse 401 "Invalid token".
Proof.
  intros Hpath Hhdr Hpre Hdec.
  rewrite (dispatch_bearer self request auth_header) by done.
  by rewrite Hdec.
Qed.

(** C2, as the code has it: the middleware decodes the presented token
    with signature verification switched off. For a token whose claim
    structure parses and whose signature does not verify against the
    signing secret, the handler is invoked exactly when the payload has a
    non-empty [ID] claim, with that claim and the token attached to the
    request state; otherwise the request is answered with 401 "Invalid
    token" and the handler is not invoked. *)
Theorem dispatch_does_not_verify_signature (self : JWTAuthMiddleware)
    (request : Request) (auth_header secret : string) (payload : gmap string json) :
  path request ∉ excluded_paths self →
  headers_get (headers request) "Authorization" = Some auth_header →
  Text.startswith "Bearer " auth_header = true →
  jwt_decode (bearer_token auth_header) = Some payload →
  jwt_verifies secret (bearer_token auth_header) = false →
  (invokes_handler (dispatch self request) = true
   ↔ ∃ user_id, payload !! "ID" = Some user_id ∧ truthy user_id = true)
  ∧ (invokes_handler (dispatch self request) = false →
     dispatch self request = JSONResponse 401 "Invalid token")
  ∧ (∀ user_id, payload !! "ID" = Some user_id → truthy user_id = true →
     dispatch self request
     = CallNext {| path := path request; headers := headers request;
                   state := {| state_user_id := Some user_id;
                               state_token := Some (bearer_token auth_header) |} |}).
Proof.
  intros Hpath Hhdr Hpre Hdec _.
  rewrite (dispatch_bearer self request auth_header) by done.
  rewrite Hdec.
  destruct (payload !! "ID") as [v|] eqn:Hid.
  - destruct (truthy v) eqn:Hv; simpl.
    + split; [|split].
      * split; [intros _; by exists v | done].
      * discriminate.
      * by intros ? [= <-] _.
    + split; [|split].
      * split; [discriminate | intros (w & [= <-] & Hw); congruence].
      * done.
      * intros ? [= <-] Hw. congruence.
  - simpl. split; [|split].
    + split; [discriminate | by intros (w & ? & _)].
    + done.
    + intros; discriminate.
Qed.

End MiddlewareFacts.

(** The claim of C2 fails at [Sample.forged_request]: the token parses,
    its signature does not verify against the secret, and the handler is
    invoked with the forged subject attached. *)
Lemma forged_token_reaches_handler :
  @Api.jwt_decode Sample.jwt Sample.forged_token
  = Some {[ "ID" := Json.JStr "user:bob" ]}
  ∧ @Api.jwt_verifies Sample.jwt Sample.secret Sample.forged_token = false
  ∧ @Api.dispatch Sample.jwt (Api.init None) Sample.forged_request
    = Api.CallNext
        {| Api.path := "/api/notebooks";
           Api.headers := [("authorization", "Bearer jwt.user:bob.forged")];
           Api.state := {| Api.state_user_id := Some (Json.JStr "user:bob");
                           Api.state_token := Some "jwt.user:bob.forged" |} |}.
Proof. repeat split. Qed.

Lemma dispatch_does_not_verify_signature_witness :
  (Api.invokes_handler (@Api.dispatch Sample.jwt (Api.init None) Sample.forged_request)
   = true
   ↔ ∃ user_id, ({[ "ID" := Json.JStr "user:bob" ]} : gmap string Json.json) !! "ID"
                = Some user_id ∧ Json.truthy user_id = true)
  ∧ (Api.invokes_handler (@Api.dispatch Sample.jwt (Api.init None) Sample.forged_request)
     = false →
     @Api.dispatch Sample.jwt (Api.init None) Sample.forged_request
     = Api.JSONResponse 401 "Invalid token")
  ∧ (∀ user_id, ({[ "ID" := Json.JStr "user:bob" ]} : gmap string Json.json) !! "ID"
                = Some user_id → Json.truthy user_id = true →
     @Api.dispatch Sample.jwt (Api.init None) Sample.forged_request
     = Api.CallNext
         {| Api.path := Api.path Sample.forged_request;
            Api.headers := Api.headers Sample.forged_request;
            Api.state := {| Api.state_user_id := Some user_id;
                            Api.state_token :=
                              Some (Api.bearer_token ("Bearer " ++ Sample.forged_token)) |} |}).
Proof.
  apply (@dispatch_does_not_verify_signature Sample.jwt (Api.init None)
           Sample.forged_request ("Bearer " ++ Sample.forged_token) Sample.secret).
  - not_in_literal.
  - reflexivity.
  - reflexivity.
  - reflexivity.
  - reflexivity.
Defined.

(** ** Tokens, signup and signin *)

Section TokenFacts.
Import Surreal.

Lemma issue_exp (a : access) (rid : string) (now : Z) :
  exp (issue a rid now) = (now + token_duration a)%Z.
Proof. reflexivity. Qed.

(** C3, as the code has it: a token that [user_access] issues at [T]
    carries the expiry [T + 24h]: validation succeeds at every check
    time from [T] up to and including [T + 24h] and answers [Expired] at
    every later one. The 24 hours are fixed for every issued token;
    7 days is the duration of the session. *)
Theorem user_access_token_lifetime (rid : string) (T T' : Z) :
  exp (issue user_access rid T) = (T + 86400)%Z
  ∧ session_duration user_access = (7 * 86400)%Z
  ∧ ((T ≤ T' ≤ T + hours 24)%Z →
     validate_at (issue user_access rid T) T' = inl (issue user_access rid T))
  ∧ ((T + hours 24 < T')%Z →
     validate_at (issue user_access rid T) T' = inr Expired).
Proof.
  unfold validate_at. rewrite issue_exp.
  unfold user_access, hours, days; simpl token_duration.
  split; [lia|]. split; [reflexivity|]. split; intros Hwhen.
  - destruct (Z.ltb_spec (T + 24 * 3600) T'); [lia | done].
  - destruct (Z.ltb_spec (T + 24 * 3600) T'); [done | lia].
Qed.

End TokenFacts.

Section SignupFacts.
Import Surreal Api.
Context `{!Builtins}.

Lemma create_user_inserts (tbl tbl' : user_table) (rid : string) (u : user) :
  create_user tbl rid u = (tbl', None) → tbl' = <[rid := u]> tbl.
Proof.
  unfold create_user. destruct (tbl !! rid); [intros [= ]|].
  destruct (negb (is_email (email u))); [intros [= ]|].
  destruct (email_indexed tbl (email u)); [intros [= ]|].
  by intros [= <-].
Qed.

Lemma email_indexed_true (tbl : user_table) (k : string) (u : user) :
  tbl !! k = Some u → email_indexed tbl (email u) = true.
Proof.
  intros Hk. unfold email_indexed. apply bool_decide_eq_true_2.
  exists k, u. by split.
Qed.

Lemma create_user_duplicate (tbl : user_table) (rid k : string) (u new : user) :
  tbl !! k = Some u → email u = email new →
  is_email (email u) = true → tbl !! rid = None →
  create_user tbl rid new = (tbl, Some DuplicateEmail).
Proof.
  intros Hk Heq Hok Hfree. unfold create_user.
  rewrite Hfree, <- Heq, Hok. simpl.
  by rewrite (email_indexed_true tbl k u).
Qed.

Lemma create_user_rejects_indexed (tbl : user_table) (rid k : string) (u new : user) :
  tbl !! k = Some u → email u = email new →
  ∃ err, create_user tbl rid new = (tbl, Some err).
Proof.
  intros Hk Heq. unfold create_user.
  destruct (tbl !! rid); [by eexists|].
  destruct (negb (is_email (email new))); [by eexists|].
  rewrite <- Heq, (email_indexed_true tbl k u) by done. by eexists.
Qed.

(** C4, as the code has it: a signup whose e-mail is exactly the stored
    e-mail of an existing user fails and leaves the user table as it
    was: the unique index, which compares the strings as stored, makes
    the SIGNUP clause fail. The failure the signup reports is the one
    failure of the record access, the same that a request with an
    e-mail failing the ASSERT of the field gets; it does not say that
    the e-mail is taken. *)
Theorem signup_duplicate_email (tbl : user_table) (request : SignupRequest.t)
    (rid salt k : string) (now : Z) (u : user) :
  tbl !! k = Some u →
  email u = SignupRequest.email request →
  signup tbl request rid salt now = (tbl, inl SignupQueryFailed)
  ∧ ∀ other, is_email (SignupRequest.email other) = false →
      signup tbl other rid salt now = (tbl, inl SignupQueryFailed).
Proof.
  intros Hk Heq. split.
  - unfold signup, db_signup.
    destruct (create_user_rejects_indexed tbl rid k u
                (signup_row (SignupRequest.email request)
                   (SignupRequest.password request) (SignupRequest.name request)
                   salt now) Hk Heq) as [err ->].
    reflexivity.
  - intros other Hbad. unfold signup, db_signup, create_user. simpl.
    destruct (tbl !! rid); [reflexivity|]. by rewrite Hbad.
Qed.

Lemma email_indexed_false (tbl : user_table) (e k : string) (u : user) :
  email_indexed tbl e = false → tbl !! k = Some u → email u ≠ e.
Proof.
  unfold email_indexed. intros Hno Hk Heq.
  apply bool_decide_eq_false_1 in Hno. apply Hno. exists k, u. by split.
Qed.

(** The unique index is an invariant of [CREATE]: a table in which no two
    records share an e-mail stays so, whether the statement succeeds or
    fails. *)
Lemma create_user_keeps_emails_unique (tbl tbl' : user_table) (rid : string)
    (u : user) (res : option db_error) :
  emails_unique tbl → create_user tbl rid u = (tbl', res) → emails_unique tbl'.
Proof.
  intros Huniq. unfold create_user.
  destruct (tbl !! rid) eqn:Hfree; [by intros [= <- _]|].
  destruct (negb (is_email (email u))); [by intros [= <- _]|].
  destruct (email_indexed tbl (email u)) eqn:Hidx; [by intros [= <- _]|].
  intros [= <- _] k1 k2 u1 u2 H1 H2 Heq.
  destruct (decide (k1 = rid)) as [->|Hk1], (decide (k2 = rid)) as [->|Hk2];
    [done| | |].
  - rewrite lookup_insert_eq in H1. injection H1 as <-.
    rewrite lookup_insert_ne in H2 by done.
    by destruct (email_indexed_false tbl (email u) k2 u2).
  - rewrite lookup_insert_eq in H2. injection H2 as <-.
    rewrite lookup_insert_ne in H1 by done.
    by destruct (email_indexed_false tbl (email u) k1 u1).
  - rewrite lookup_insert_ne in H1, H2 by done. by eapply Huniq.
Qed.

(** A successful signup stores the new record under the generated id with
    role [user], whatever the request holds, and answers with a token of
    [user_access] for that record. *)
Lemma signup_stores_role_user (tbl tbl' : user_table) (request : SignupRequest.t)
    (rid salt : string) (now : Z) (response : TokenResponse.t) :
  signup tbl request rid salt now = (tbl', inr response) →
  ∃ row, tbl' !! rid = Some row
         ∧ role row = "user"
         ∧ email row = SignupRequest.email request
         ∧ TokenResponse.user_id response = rid
         ∧ TokenResponse.token response = jwt_sign (issue user_access rid now).
Proof.
  unfold signup, db_signup.
  destruct (create_user tbl rid _) as [t [e|]] eqn:Hcreate; [intros [= ]|].
  intros [= <- <-]. apply create_user_inserts in Hcreate as ->.
  eexists. split; [apply lookup_insert_eq|]. by repeat split.
Qed.

(** The body of a [TokenResponse] has the members [token], [user_id],
    [email] and [name] and no [role]; it is not the shape
    [AuthResponse] that the client declares. *)
Lemma token_response_has_no_role (r : TokenResponse.t) :
  keys (TokenResponse.body r) = ["token"; "user_id"; "email"; "name"]
  ∧ ("role" ∉ keys (TokenResponse.body r))
  ∧ keys (TokenResponse.body r) ≠ AuthResponse.
Proof.
  split; [reflexivity|]. split; [|discriminate].
  not_in_literal.
Qed.

(** C5, as the code has it: every successful signup returns a value of
    exactly the shape [{token, user_id, email, name}], without a
    [role] member, and every successful signin returns a value of the
    identical shape. *)
Theorem signup_and_signin_answer_four_members (tbl : user_table)
    (request : SignupRequest.t) (rid salt : string) (now : Z)
    (credentials : SigninRequest.t) (now' : Z) :
  (∀ tbl' response, signup tbl request rid salt now = (tbl', inr response) →
     keys (TokenResponse.body response) = ["token"; "user_id"; "email"; "name"]
     ∧ "role" ∉ keys (TokenResponse.body response))
  ∧ (∀ response, signin tbl credentials now' = inr response →
       keys (TokenResponse.body response) = ["token"; "user_id"; "email"; "name"]
       ∧ "role" ∉ keys (TokenResponse.body response)).
Proof.
  split.
  - intros tbl' response _.
    destruct (token_response_has_no_role response) as (Hkeys & Hrole & _).
    by split.
  - intros response _.
    destruct (token_response_has_no_role response) as (Hkeys & Hrole & _).
    by split.
Qed.

End SignupFacts.

Lemma signup_duplicate_email_witness :
  @Api.signup Sample.builtins Sample.one_user Sample.ann_request "user:2" "salt2" 5
  = (Sample.one_user, inl Surreal.SignupQueryFailed)
  ∧ ∀ other, @Surreal.is_email Sample.builtins (Api.SignupRequest.email other) = false →
      @Api.signup Sample.builtins Sample.one_user other "user:2" "salt2" 5
      = (Sample.one_user, inl Surreal.SignupQueryFailed).
Proof.
  apply (@signup_duplicate_email Sample.builtins Sample.one_user Sample.ann_request
           "user:2" "salt2" "user:ann" 5 Sample.ann_row).
  - apply lookup_singleton_eq.
  - reflexivity.
Defined.

(** The claim of C4 fails at [Sample.ann_again]: its e-mail equals Ann's
    up to letter case, yet the signup succeeds and a second user record
    is stored. And where the e-mail is Ann's exactly, the failure is
    not [DuplicateEmail] but the one failure of the record access. *)
Lemma signup_case_variant_creates_user :
  Text.lower (Api.SignupRequest.email Sample.ann_again)
  = Text.lower (Surreal.email Sample.ann_row)
  ∧ Sample.one_user !! "user:ann" = Some Sample.ann_row
  ∧ @Api.signup Sample.builtins Sample.one_user Sample.ann_again "user:2" "salt2" 5
    = (<["user:2" := @Surreal.signup_row Sample.builtins
                       "Ann@x.com" "password456" "Ann Again" "salt2" 5]>
         Sample.one_user,
       inr {| Api.TokenResponse.token := "jwt.user:2.mac";
              Api.TokenResponse.user_id := "user:2";
              Api.TokenResponse.email := "Ann@x.com";
              Api.TokenResponse.name := "Ann Again" |})
  ∧ size (@Api.signup Sample.builtins Sample.one_user Sample.ann_again
            "user:2" "salt2" 5).1 = 2
  ∧ (@Api.signup Sample.builtins Sample.one_user Sample.ann_request
       "user:2" "salt2" 5).2
    = inl Surreal.SignupQueryFailed
  ∧ (@Api.signup Sample.builtins Sample.one_user Sample.ann_request
       "user:2" "salt2" 5).2
    ≠ inl Surreal.DuplicateEmail.
Proof.
  split; [reflexivity|]. split; [apply lookup_singleton_eq|].
  split; [vm_compute; reflexivity|]. split; [vm_compute; reflexivity|].
  split; [vm_compute; reflexivity|]. vm_compute. discriminate.
Qed.

(** The claim of C5 fails at Ann's signup: it succeeds, and its response
    has four members, none of them [role]. *)
Lemma signup_response_lacks_role :
  (@Api.signup Sample.builtins ∅ Sample.ann_request "user:ann" "salt1" 0).2
  = inr {| Api.TokenResponse.token := "jwt.user:ann.mac";
           Api.TokenResponse.user_id := "user:ann";
           Api.TokenResponse.email := "ann@x.com";
           Api.TokenResponse.name := "Ann" |}
  ∧ Api.keys (Api.TokenResponse.body
                {| Api.TokenResponse.token := "jwt.user:ann.mac";
                   Api.TokenResponse.user_id := "user:ann";
                   Api.TokenResponse.email := "ann@x.com";
                   Api.TokenResponse.name := "Ann" |})
    = ["token"; "user_id"; "email"; "name"]
  ∧ Api.keys (Api.TokenResponse.body
                {| Api.TokenResponse.token := "jwt.user:ann.mac";
                   Api.TokenResponse.user_id := "user:ann";
                   Api.TokenResponse.email := "ann@x.com";
                   Api.TokenResponse.name := "Ann" |})
    ≠ Api.AuthResponse.
Proof.
  split; [vm_compute; reflexivity|]. split; [reflexivity | discriminate].
Qed.

Lemma signup_and_signin_answer_four_members_witness :
  (∀ tbl' response,
     @Api.signup Sample.builtins Sample.one_user Sample.ann_again "user:2" "salt2" 5
     = (tbl', inr response) →
     Api.keys (Api.TokenResponse.body response) = ["token"; "user_id"; "email"; "name"]
     ∧ "role" ∉ Api.keys (Api.TokenResponse.body response))
  ∧ (∀ response,
       @Api.signin Sample.builtins Sample.one_user
         {| Api.SigninRequest.email := "ann@x.com";
            Api.SigninRequest.password := "password123" |} 90
       = inr response →
       Api.keys (Api.TokenResponse.body response) = ["token"; "user_id"; "email"; "name"]
       ∧ "role" ∉ Api.keys (Api.TokenResponse.body response)).
Proof.
  apply (@signup_and_signin_answer_four_members Sample.builtins).
Defined.

Lemma user_access_token_lifetime_witness :
  Surreal.validate_at (Surreal.issue Surreal.user_access "user:ann" 0) 3600
  = inl (Surreal.issue Surreal.user_access "user:ann" 0)
  ∧ Surreal.validate_at (Surreal.issue Surreal.user_access "user:ann" 0) 86400
    = inl (Surreal.issue Surreal.user_access "user:ann" 0)
  ∧ Surreal.validate_at (Surreal.issue Surreal.user_access "user:ann" 0) 86401
    = inr Surreal.Expired.
Proof.
  split; [|split].
  - apply (user_access_token_lifetime "user:ann" 0 3600). vm_compute. by split.
  - apply (user_access_token_lifetime "user:ann" 0 86400). vm_compute. by split.
  - apply (user_access_token_lifetime "user:ann" 0 86401). reflexivity.
Defined.

(** The claim of C3 fails two days after issue: the check time is within
    7 days of the issue, and the token is expired. *)
Lemma token_expired_after_two_days :
  (0 ≤ Surreal.days 2 < 0 + Surreal.days 7)%Z
  ∧ Surreal.validate_at (Surreal.issue Surreal.user_access "user:ann" 0)
      (Surreal.days 2)
    = inr Surreal.Expired.
Proof. split; [vm_compute; by split | reflexivity]. Qed.

(** The response to Ann's first signup, member by member. *)
Example signup_response_members :
  (@Api.signup Sample.builtins ∅ Sample.ann_request "user:ann" "salt1" 0).2
  = inr {| Api.TokenResponse.token := "jwt.user:ann.mac";
           Api.TokenResponse.user_id := "user:ann";
           Api.TokenResponse.email := "ann@x.com";
           Api.TokenResponse.name := "Ann" |}
  ∧ Api.keys (Api.TokenResponse.body
                {| Api.TokenResponse.token := "jwt.user:ann.mac";
                   Api.TokenResponse.user_id := "user:ann";
                   Api.TokenResponse.email := "ann@x.com";
                   Api.TokenResponse.name := "Ann" |})
    = ["token"; "user_id"; "email"; "name"].
Proof. split; vm_compute; reflexivity. Qed.

(** ** Start-up *)

Section BootstrapFacts.
Import Surreal Core.
Local Open Scope nat_scope.
Context `{!Builtins} {Rest : Type}.

Lemma apply_pending_version (pending : list (migration Rest)) (s s' : persisted Rest) :
  apply_pending pending s = (s', None) →
  schema_version s' = schema_version s + length pending.
Proof.
  revert s. induction pending as [|m pending IH]; intros s Hrun; simpl in Hrun.
  - injection Hrun as <-. simpl. lia.
  - destruct (forward m (data s)) as [c|]; [|discriminate].
    apply IH in Hrun. simpl in *. lia.
Qed.

(** After a successful run the store is at the latest version or past it. *)
Lemma applyForward_latest (ms : list (migration Rest)) (s s' : persisted Rest) :
  applyForward ms None s = (s', None) → length ms ≤ schema_version s'.
Proof.
  unfold applyForward. intros Hrun.
  apply apply_pending_version in Hrun. rewrite length_drop in Hrun. lia.
Qed.

(** At the latest version there is nothing pending. *)
Lemma applyForward_noop (ms : list (migration Rest)) (s : persisted Rest) :
  length ms ≤ schema_version s → applyForward ms None s = (s, None).
Proof.
  intros Hlatest. unfold applyForward. by rewrite drop_ge.
Qed.

Lemma has_admin_count (tbl : user_table) :
  has_admin tbl = true ↔ 1 ≤ admin_count tbl.
Proof.
  unfold has_admin, admin_count.
  case_bool_decide as Hempty; simpl.
  - rewrite Hempty, map_size_empty. split; [discriminate | lia].
  - split; [intros _ | done].
    destruct (size (admins tbl)) eqn:Hsize; [|lia].
    by apply map_size_empty_iff in Hsize.
Qed.

Lemma has_admin_false (tbl : user_table) : has_admin tbl = false → admins tbl = ∅.
Proof.
  unfold has_admin. case_bool_decide; [done | discriminate].
Qed.

Lemma admins_insert_admin (tbl : user_table) (rid : string) (u : user) :
  role u = "admin" → admins (<[rid := u]> tbl) = <[rid := u]> (admins tbl).
Proof. intros Hrole. unfold admins. by rewrite map_filter_insert_True. Qed.

(** C8, as amended: if a first run of the bootstrap sequencer succeeds
    and leaves the store [s1], a second run succeeds and leaves [s1]
    again, so the persisted schema version and the set of administrators
    are the same after both runs; on the second run nothing is pending
    and an administrator exists, so the creation step does nothing. At
    least one administrator exists, and exactly one when the store held
    at most one after the migrations of the first run. *)
Theorem bootstrap_twice (ms : list (migration Rest)) (salt salt' : string)
    (now now' : Z) (s s1 : persisted Rest) :
  bootstrap ms salt now s = (s1, None) →
  bootstrap ms salt' now' s1 = (s1, None)
  ∧ applyForward ms None s1 = (s1, None)
  ∧ has_admin (users (data s1)) = true
  ∧ 1 ≤ admin_count (users (data s1))
  ∧ (admin_count (users (data (applyForward ms None s).1)) ≤ 1 →
     admin_count (users (data s1)) = 1).
Proof.
  intros Hfirst.
  assert (length ms ≤ schema_version s1
          ∧ has_admin (users (data s1)) = true
          ∧ (admin_count (users (data (applyForward ms None s).1)) ≤ 1 →
             admin_count (users (data s1)) = 1)) as (Hlatest & Hadm & Hone).
  { unfold bootstrap in Hfirst.
    destruct (applyForward ms None s) as [s0 [e|]] eqn:Hmig; [discriminate|].
    apply applyForward_latest in Hmig.
    destruct (has_admin (users (data s0))) eqn:Hhas.
    - injection Hfirst as <-. simpl. repeat split; [done..|].
      apply has_admin_count in Hhas. lia.
    - destruct (create_user (users (data s0)) admin_id (admin_row salt now))
        as [tbl [e|]] eqn:Hcreate; [discriminate|].
      injection Hfirst as <-. simpl.
      apply create_user_inserts in Hcreate as ->.
      apply has_admin_false in Hhas.
      assert (admins (<[admin_id := admin_row salt now]> (users (data s0)))
              = {[ admin_id := admin_row salt now ]}) as Hadmins.
      { rewrite admins_insert_admin by done. by rewrite Hhas, insert_empty. }
      repeat split; [done| |].
      + apply has_admin_count. unfold admin_count.
        rewrite Hadmins, map_size_singleton. lia.
      + intros _. unfold admin_count. by rewrite Hadmins, map_size_singleton. }
  assert (applyForward ms None s1 = (s1, None)) as Hnoop
    by by apply applyForward_noop.
  repeat split; [|done..|by apply has_admin_count|done].
  unfold bootstrap. by rewrite Hnoop, Hadm.
Qed.

End BootstrapFacts.

Local Open Scope nat_scope.

Lemma bootstrap_twice_witness :
  let s1 : Core.persisted unit :=
    {| Core.schema_version := 1;
       Core.data :=
         {| Core.users :=
              {[ Surreal.admin_id := @Surreal.admin_row Sample.builtins "salt0" 0 ]};
            Core.rest := () |} |} in
  @Core.bootstrap Sample.builtins unit Sample.migrations "salt1" 60 s1 = (s1, None)
  ∧ Core.applyForward Sample.migrations None s1 = (s1, None)
  ∧ Core.has_admin (Core.users (Core.data s1)) = true
  ∧ 1 ≤ Core.admin_count (Core.users (Core.data s1))
  ∧ (Core.admin_count
       (Core.users (Core.data (Core.applyForward Sample.migrations None
                                 Sample.fresh_store).1)) ≤ 1 →
     Core.admin_count (Core.users (Core.data s1)) = 1).
Proof.
  apply (@bootstrap_twice Sample.builtins unit Sample.migrations "salt0" "salt1"
           0 60 Sample.fresh_store).
  vm_compute. reflexivity.
Defined.

(** The claim of C8 fails at [Sample.two_admins]: the first run succeeds,
    so does the second, and the store holds two administrators after
    both. *)
Lemma bootstrap_keeps_two_admins :
  @Core.bootstrap Sample.builtins unit Sample.migrations "salt1" 60 Sample.two_admins
  = (Sample.two_admins, None)
  ∧ @Core.bootstrap Sample.builtins unit Sample.migrations "salt2" 120 Sample.two_admins
    = (Sample.two_admins, None)
  ∧ Core.admin_count (Core.users (Core.data Sample.two_admins)) = 2.
Proof. repeat split; vm_compute; reflexivity. Qed.

Lemma dispatch_excluded_witness :
  @Api.dispatch Sample.jwt (Api.init None)
    {| Api.path := "/health"; Api.headers := [];
       Api.state := {| Api.state_user_id := None; Api.state_token := None |} |}
  = Api.CallNext
      {| Api.path := "/health"; Api.headers := [];
         Api.state := {| Api.state_user_id := None; Api.state_token := None |} |}.
Proof.
  apply (@dispatch_excluded Sample.jwt). simpl.
  apply elem_of_cons. right. apply elem_of_cons. by left.
Defined.

Lemma dispatch_requires_bearer_witness :
  @Api.dispatch Sample.jwt (Api.init None)
    {| Api.path := "/api/notebooks"; Api.headers := [("authorization", "Basic abc")];
       Api.state := {| Api.state_user_id := None; Api.state_token := None |} |}
  = Api.JSONResponse 401 "Unauthorized".
Proof.
  apply (@dispatch_requires_bearer Sample.jwt).
  - not_in_literal.
  - intros h [= <-]. reflexivity.
Defined.

Lemma create_user_keeps_emails_unique_witness :
  Surreal.emails_unique
    (<["user:2" := @Surreal.signup_row Sample.builtins
                     "Ann@x.com" "password456" "Ann Again" "salt2" 5]>
       Sample.one_user).
Proof.
  apply (@create_user_keeps_emails_unique Sample.builtins Sample.one_user _ "user:2"
           (@Surreal.signup_row Sample.builtins
              "Ann@x.com" "password456" "Ann Again" "salt2" 5) None).
  - intros k1 k2 u1 u2 H1 H2 _. unfold Sample.one_user in H1, H2.
    apply lookup_singleton_Some in H1 as [<- _].
    by apply lookup_singleton_Some in H2 as [<- _].
  - vm_compute. reflexivity.
Defined.

Lemma signup_stores_role_user_witness :
  ∃ row, ({[ "user:ann" := Sample.ann_row ]} : gmap string Surreal.user) !! "user:ann"
         = Some row
         ∧ Surreal.role row = "user"
         ∧ Surreal.email row = "ann@x.com"
         ∧ "user:ann" = "user:ann"
         ∧ "jwt.user:ann.mac"
           = @Surreal.jwt_sign Sample.builtins
               (Surreal.issue Surreal.user_access "user:ann" 0).
Proof.
  apply (@signup_stores_role_user Sample.builtins ∅ _ Sample.ann_request
           "user:ann" "salt1" 0
           {| Api.TokenResponse.token := "jwt.user:ann.mac";
              Api.TokenResponse.user_id := "user:ann";
              Api.TokenResponse.email := "ann@x.com";
              Api.TokenResponse.name := "Ann" |}).
  vm_compute. reflexivity.
Defined.

Lemma dispatch_rejects_undecodable_witness :
  @Api.dispatch Sample.jwt (Api.init None)
    {| Api.path := "/api/notebooks"; Api.headers := [("authorization", "Bearer garbage")];
       Api.state := {| Api.state_user_id := None; Api.state_token := None |} |}
  = Api.JSONResponse 401 "Invalid token".
Proof.
  apply (@dispatch_rejects_undecodable Sample.jwt _ _ "Bearer garbage").
  - not_in_literal.
  - reflexivity.
  - reflexivity.
  - reflexivity.
Defined.

(** ** More on the middleware *)

Section MoreMiddlewareFacts.
Import Json Api.
Context `{!JwtLib}.

(** Whenever [dispatch] hands a request for a protected path to the
    handler, the request carries an identity: the header was a bearer
    header, its token decoded to a payload with a non-empty [ID], and
    the forwarded request is the incoming one with that [ID] and the
    token in its state. *)
Theorem dispatch_handler_has_identity (self : JWTAuthMiddleware)
    (request forwarded : Request) :
  path request ∉ excluded_paths self →
  dispatch self request = CallNext forwarded →
  ∃ auth_header payload user_id,
    headers_get (headers request) "Authorization" = Some auth_header
    ∧ Text.startswith "Bearer " auth_header = true
    ∧ jwt_decode (bearer_token auth_header) = Some payload
    ∧ payload !! "ID" = Some user_id
    ∧ truthy user_id = true
    ∧ forwarded = {| path := path request; headers := headers request;
                     state := {| state_user_id := Some user_id;
                                 state_token := Some (bearer_token auth_header) |} |}.
Proof.
  intros Hpath. unfold dispatch.
  rewrite bool_decide_eq_false_2 by done.
  destruct (headers_get (headers request) "Authorization") as [h|]; [|discriminate].
  destruct (Text.startswith "Bearer " h) eqn:Hpre; simpl; [|discriminate].
  destruct (jwt_decode (bearer_token h)) as [payload|] eqn:Hdec; [|discriminate].
  destruct (payload !! "ID") as [v|] eqn:Hid; [|discriminate].
  destruct (truthy v) eqn:Hv; [|discriminate].
  intros [= <-]. by exists h, payload, v.
Qed.

(** An exclusion list that is absent or empty gives the default list,
    which is never empty; a non-empty list replaces the defaults, and a
    request for a path outside it that has no [Authorization] header is
    refused, the default paths included. *)
Theorem init_exclusion_list (excluded : option (list string)) :
  excluded_paths (init excluded) ≠ []
  ∧ excluded_paths (init (Some [])) = excluded_paths (init None)
  ∧ (∀ p ps, excluded = Some (p :: ps) →
       excluded_paths (init excluded) = p :: ps
       ∧ ∀ request, path request ∉ p :: ps →
           headers_get (headers request) "Authorization" = None →
           dispatch (init excluded) request = JSONResponse 401 "Unauthorized").
Proof.
  split; [|split].
  - destruct excluded as [[|p ps]|]; discriminate.
  - reflexivity.
  - intros p ps ->. split; [reflexivity|].
    intros request Hpath Hhdr. unfold dispatch. simpl.
    rewrite bool_decide_eq_false_2 by done. by rewrite Hhdr.
Qed.

End MoreMiddlewareFacts.

Lemma dispatch_handler_has_identity_witness :
  ∃ auth_header payload user_id,
    Api.headers_get (Api.headers Sample.forged_request) "Authorization"
    = Some auth_header
    ∧ Text.startswith "Bearer " auth_header = true
    ∧ @Api.jwt_decode Sample.jwt (Api.bearer_token auth_header) = Some payload
    ∧ payload !! "ID" = Some user_id
    ∧ Json.truthy user_id = true
    ∧ {| Api.path := "/api/notebooks";
         Api.headers := [("authorization", "Bearer jwt.user:bob.forged")];
         Api.state := {| Api.state_user_id := Some (Json.JStr "user:bob");
                         Api.state_token := Some "jwt.user:bob.forged" |} |}
      = {| Api.path := Api.path Sample.forged_request;
           Api.headers := Api.headers Sample.forged_request;
           Api.state := {| Api.state_user_id := Some user_id;
                           Api.state_token := Some (Api.bearer_token auth_header) |} |}.
Proof.
  apply (@dispatch_handler_has_identity Sample.jwt (Api.init None) Sample.forged_request).
  - not_in_literal.
  - reflexivity.
Defined.

Section BearerHeaderFacts.
Import Api.

Lemma split_no_space (tok rest : string) :
  no_space tok = true →
  Text.split " " (tok ++ String " " rest) = tok :: Text.split " " rest.
Proof.
  induction tok as [|c tok IH]; simpl; intros Hns; [reflexivity|].
  apply andb_true_iff in Hns as [Hc Hns].
  apply negb_true_iff in Hc. rewrite Hc, (IH Hns). reflexivity.
Qed.

Lemma split_no_space_end (tok : string) :
  no_space tok = true → Text.split " " tok = [tok].
Proof.
  induction tok as [|c tok IH]; simpl; intros Hns; [reflexivity|].
  apply andb_true_iff in Hns as [Hc Hns].
  apply negb_true_iff in Hc. rewrite Hc, (IH Hns). reflexivity.
Qed.

(** The token is the text between the first and the second space of the
    header: from [Bearer <token>] with a token that has no space,
    [bearer_token] recovers the token, and whatever follows a further
    space is dropped. *)
Theorem bearer_token_recovers_token (tok : string) :
  no_space tok = true →
  bearer_token ("Bearer " ++ tok) = tok
  ∧ ∀ junk, bearer_token ("Bearer " ++ tok ++ " " ++ junk) = tok.
Proof.
  intros Hns. unfold bearer_token. split.
  - change ("Bearer " ++ tok) with ("Bearer" ++ String " " tok).
    rewrite split_no_space by reflexivity.
    by rewrite split_no_space_end.
  - intros junk.
    change ("Bearer " ++ tok ++ " " ++ junk)
      with ("Bearer" ++ String " " (tok ++ String " " junk)).
    rewrite split_no_space by reflexivity.
    by rewrite split_no_space.
Qed.

End BearerHeaderFacts.

Lemma bearer_token_recovers_token_witness :
  Api.bearer_token ("Bearer " ++ "jwt.user:bob.forged") = "jwt.user:bob.forged"
  ∧ ∀ junk, Api.bearer_token ("Bearer " ++ "jwt.user:bob.forged" ++ " " ++ junk)
            = "jwt.user:bob.forged".
Proof.
  apply (bearer_token_recovers_token "jwt.user:bob.forged"). reflexivity.
Defined.

(** ** Signin, and signup followed by signin *)

Section SigninFacts.
Import Surreal Api.
Context `{!Builtins}.

Lemma signin_rows_spec (tbl : user_table) (e p k : string) (row : user) :
  (k, row) ∈ signin_rows tbl e p
  ↔ tbl !! k = Some row ∧ email row = e ∧ argon2_compare (password row) p = true.
Proof.
  unfold signin_rows. rewrite list_elem_of_In, filter_In, <- list_elem_of_In.
  rewrite elem_of_map_to_list. simpl.
  rewrite andb_true_iff, bool_decide_eq_true. tauto.
Qed.

(** [POST /signin] answers for a stored record or not at all: a response
    names a record of the table whose e-mail is the requested one and
    whose stored digest compares equal to the presented password, and
    carries that record's name and a token of [user_access] for it; a
    failure is [NoRecord], and then no record with that e-mail
    compares equal, whether the e-mail is unknown or the password is
    wrong. *)
Theorem signin_answers_for_stored_record (tbl : user_table)
    (request : SigninRequest.t) (now : Z) :
  (∀ response, signin tbl request now = inr response →
     ∃ row, tbl !! TokenResponse.user_id response = Some row
            ∧ email row = SigninRequest.email request
            ∧ argon2_compare (password row) (SigninRequest.password request) = true
            ∧ TokenResponse.email response = SigninRequest.email request
            ∧ TokenResponse.name response = Surreal.name row
            ∧ TokenResponse.token response
              = jwt_sign (issue user_access (TokenResponse.user_id response) now))
  ∧ (∀ err, signin tbl request now = inl err →
       err = NoRecord
       ∧ ∀ k row, tbl !! k = Some row → email row = SigninRequest.email request →
           argon2_compare (password row) (SigninRequest.password request) = false).
Proof.
  unfold signin, db_signin.
  destruct (signin_rows tbl (SigninRequest.email request)
              (SigninRequest.password request)) as [|[k row] rows] eqn:Hrows.
  - split; [intros ? [= ]|]. intros err [= <-]. split; [reflexivity|].
    intros k row Hk He.
    destruct (argon2_compare (password row) (SigninRequest.password request))
      eqn:Hcmp; [|reflexivity].
    assert ((k, row) ∈ signin_rows tbl (SigninRequest.email request)
              (SigninRequest.password request)) as Hin
      by by apply signin_rows_spec.
    rewrite Hrows in Hin. by apply elem_of_nil in Hin.
  - split; [|intros ? [= ]]. intros response [= <-]. simpl.
    assert ((k, row) ∈ signin_rows tbl (SigninRequest.email request)
              (SigninRequest.password request)) as Hin
      by (rewrite Hrows; apply elem_of_cons; by left).
    apply signin_rows_spec in Hin as (Hk & He & Hcmp).
    by exists row.
Qed.

(** Signup and then signin. After a successful signup, a signin with the
    same e-mail finds the new record and no other: with a password that
    the stored digest accepts it answers with the id of the record the
    signup created, and with a password that the digest rejects it
    fails with [NoRecord]. *)
Theorem signin_after_signup (tbl tbl' : user_table) (request : SignupRequest.t)
    (rid salt : string) (now now' : Z) (response : TokenResponse.t) :
  signup tbl request rid salt now = (tbl', inr response) →
  ∀ presented,
    signin tbl' {| SigninRequest.email := SignupRequest.email request;
                   SigninRequest.password := presented |} now'
    = if argon2_compare (argon2_generate salt (SignupRequest.password request))
           presented
      then inr {| TokenResponse.token := jwt_sign (issue user_access rid now');
                  TokenResponse.user_id := rid;
                  TokenResponse.email := SignupRequest.email request;
                  TokenResponse.name := SignupRequest.name request |}
      else inl NoRecord.
Proof.
  unfold signup, db_signup.
  destruct (create_user tbl rid _) as [t [e|]] eqn:Hcreate; [intros [= ]|].
  intros [= <- _] presented.
  assert (tbl !! rid = None
          ∧ email_indexed tbl (SignupRequest.email request) = false) as [Hfree Hidx].
  { unfold create_user in Hcreate. destruct (tbl !! rid); [discriminate|].
    destruct (negb (is_email _)); [discriminate|]. simpl in Hcreate.
    destruct (email_indexed tbl (SignupRequest.email request)); [discriminate|done]. }
  apply create_user_inserts in Hcreate as ->.
  set (row := signup_row (SignupRequest.email request) (SignupRequest.password request)
                (SignupRequest.name request) salt now).
  assert (∀ k r, (k, r) ∈ signin_rows (<[rid := row]> tbl)
                   (SignupRequest.email request) presented →
                 k = rid ∧ r = row) as Honly.
  { intros k r Hin. apply signin_rows_spec in Hin as (Hk & He & _).
    destruct (decide (k = rid)) as [->|Hne].
    - rewrite lookup_insert_eq in Hk. by injection Hk as <-.
    - rewrite lookup_insert_ne in Hk by done.
      by destruct (email_indexed_false tbl (SignupRequest.email request) k r). }
  unfold signin, db_signin. simpl.
  destruct (signin_rows (<[rid := row]> tbl) (SignupRequest.email request) presented)
    as [|[k r] rows] eqn:Hrows.
  - destruct (argon2_compare _ presented) eqn:Hcmp; [|reflexivity].
    assert ((rid, row) ∈ signin_rows (<[rid := row]> tbl)
              (SignupRequest.email request) presented) as Hin.
    { apply signin_rows_spec. by rewrite lookup_insert_eq. }
    rewrite Hrows in Hin. by apply elem_of_nil in Hin.
  - assert ((k, r) ∈ signin_rows (<[rid := row]> tbl)
              (SignupRequest.email request) presented) as Hin
      by (rewrite Hrows; apply elem_of_cons; by left).
    destruct (Honly k r) as [-> ->]; [apply elem_of_cons; by left|].
    apply signin_rows_spec in Hin as (_ & _ & Hcmp). simpl in Hcmp.
    by rewrite Hcmp.
Qed.

(** A signup either fails and leaves the user table as it was, or stores
    exactly one new record, under the generated id, which was free, and
    leaves every other record as it was. *)
Theorem signup_changes_one_record (tbl : user_table) (request : SignupRequest.t)
    (rid salt : string) (now : Z) :
  (∀ err, (signup tbl request rid salt now).2 = inl err →
     (signup tbl request rid salt now).1 = tbl)
  ∧ (∀ response, (signup tbl request rid salt now).2 = inr response →
       tbl !! rid = None
       ∧ size (signup tbl request rid salt now).1 = S (size tbl)
       ∧ ∀ k, k ≠ rid → (signup tbl request rid salt now).1 !! k = tbl !! k).
Proof.
  unfold signup, db_signup, create_user.
  destruct (tbl !! rid) eqn:Hfree; simpl; [split; [done | intros ? [= ]]|].
  destruct (negb (is_email _)); simpl; [split; [done | intros ? [= ]]|].
  destruct (email_indexed tbl _); simpl; [split; [done | intros ? [= ]]|].
  split; [intros ? [= ]|]. intros _ _. split; [done|]. split.
  - by apply map_size_insert_None.
  - intros k Hne. by apply lookup_insert_ne.
Qed.

End SigninFacts.

Lemma signin_after_signup_witness :
  @Api.signin Sample.builtins Sample.one_user
    {| Api.SigninRequest.email := "ann@x.com";
       Api.SigninRequest.password := "wrong1234" |} 90
  = if @Surreal.argon2_compare Sample.builtins
         (@Surreal.argon2_generate Sample.builtins "salt1" "password123") "wrong1234"
    then inr {| Api.TokenResponse.token :=
                  @Surreal.jwt_sign Sample.builtins
                    (Surreal.issue Surreal.user_access "user:ann" 90);
                Api.TokenResponse.user_id := "user:ann";
                Api.TokenResponse.email := "ann@x.com";
                Api.TokenResponse.name := "Ann" |}
    else inl Surreal.NoRecord.
Proof.
  refine (@signin_after_signup Sample.builtins ∅ Sample.one_user Sample.ann_request
            "user:ann" "salt1" 0 90
            {| Api.TokenResponse.token := "jwt.user:ann.mac";
               Api.TokenResponse.user_id := "user:ann";
               Api.TokenResponse.email := "ann@x.com";
               Api.TokenResponse.name := "Ann" |} _ "wrong1234").
  vm_compute. reflexivity.
Defined.

(** The scenario of the plan's checklist on the stand-ins: Ann signs up,
    signs in with her password, and is refused with a wrong one. *)
Example ann_signs_in :
  @Api.signin Sample.builtins Sample.one_user
    {| Api.SigninRequest.email := "ann@x.com";
       Api.SigninRequest.password := "password123" |} 90
  = inr {| Api.TokenResponse.token := "jwt.user:ann.mac";
           Api.TokenResponse.user_id := "user:ann";
           Api.TokenResponse.email := "ann@x.com";
           Api.TokenResponse.name := "Ann" |}
  ∧ @Api.signin Sample.builtins Sample.one_user
      {| Api.SigninRequest.email := "ann@x.com";
         Api.SigninRequest.password := "wrong1234" |} 90
    = inl Surreal.NoRecord.
Proof. split; vm_compute; reflexivity. Qed.

(** ** More on the signup form and the hook *)

Section FormFacts.
Import Text Frontend Hooks.

Lemma truthy_not_blank (s : jsstring) : js_truthy (trim s) = true ↔ ¬ blank s.
Proof.
  unfold blank. destruct (trim s); simpl; split; done.
Qed.

Lemma truthy_blank (s : jsstring) : js_truthy (trim s) = false ↔ blank s.
Proof. unfold blank. destruct (trim s); simpl; split; done. Qed.

(** The two ways a run of [handleSubmit] can go. *)
Lemma handleSubmit_outcome (st : form_state) (out : signup_outcome) :
  (∃ msg, msg ∈ validation_messages ∧ handleSubmit st out = stops_with msg
          ∧ ¬ form_valid st)
  ∨ (form_valid st ∧ handleSubmit st out = signup_run st out).
Proof.
  unfold handleSubmit, form_valid, validation_messages.
  destruct (js_truthy (trim (name st))) eqn:Hn; simpl.
  2:{ left. eexists. split; [|split; [reflexivity|]].
      - apply elem_of_cons. by left.
      - apply truthy_blank in Hn. tauto. }
  destruct (js_truthy (trim (email st))) eqn:He; simpl.
  2:{ left. eexists. split; [|split; [reflexivity|]].
      - do 1 (apply elem_of_cons; right). apply elem_of_cons. by left.
      - apply truthy_blank in He. tauto. }
  destruct (js_truthy (trim (password st))) eqn:Hp; simpl.
  2:{ left. eexists. split; [|split; [reflexivity|]].
      - do 2 (apply elem_of_cons; right). apply elem_of_cons. by left.
      - apply truthy_blank in Hp. tauto. }
  destruct (N.ltb_spec (N.of_nat (List.length (password st))) 8) as [Hlen|Hlen].
  { left. eexists. split; [|split; [reflexivity|]].
    - do 3 (apply elem_of_cons; right). apply elem_of_cons. by left.
    - intros (_ & _ & _ & Hge & _). lia. }
  case_bool_decide as Heq; simpl.
  2:{ left. eexists. split; [|split; [reflexivity|]].
      - do 4 (apply elem_of_cons; right). apply elem_of_cons. by left.
      - tauto. }
  right. apply truthy_not_blank in Hn, He, Hp.
  split; [|reflexivity]. repeat split; try done. lia.
Qed.

Lemma validation_message_nonempty (msg : string) :
  msg ∈ validation_messages → msg ≠ "".
Proof.
  unfold validation_messages. intros Hin ->. revert Hin. not_in_literal.
Qed.

Lemma signup_run_invokes (st : form_state) (out : signup_outcome) :
  invokes_signup (signup_run st out) = true.
Proof. reflexivity. Qed.

(** [handleSubmit] calls the signup operation exactly when every field
    passes its check; it then calls it once, with name, e-mail and
    password as they were typed (not trimmed), and the error cell is
    left cleared whatever it held before. *)
Theorem signup_form_submits_iff_valid (st : form_state) (out : signup_outcome) :
  (invokes_signup (handleSubmit st out) = true ↔ form_valid st)
  ∧ (form_valid st →
     handleSubmit st out = signup_run st out
     ∧ ∀ init, localError_after init (handleSubmit st out) = None).
Proof.
  destruct (handleSubmit_outcome st out) as [(msg & _ & Hrun & Hinv) | [Hval Hrun]];
    rewrite Hrun.
  - split; [|done]. split; [discriminate | done].
  - split; [by rewrite signup_run_invokes|].
    intros _. split; [reflexivity|]. intros init. by destruct out.
Qed.

(** The submit button and the handler. Before the store has hydrated the
    button is disabled whatever was typed; and when the button is enabled
    no field is blank, so a submit either calls the signup operation or
    stops at one of the two password checks. *)
Theorem submit_button_guards_blank_fields (isLoading : bool) (store : auth_store)
    (st : form_state) (out : signup_outcome) :
  (hasHydrated store = false →
   submit_disabled (useAuth_isLoading isLoading store) st = true)
  ∧ (submit_disabled (useAuth_isLoading isLoading store) st = false →
     hasHydrated store = true
     ∧ ¬ blank (name st) ∧ ¬ blank (email st) ∧ ¬ blank (password st)
     ∧ ¬ blank (confirmPassword st)
     ∧ (handleSubmit st out = signup_run st out
        ∨ handleSubmit st out = stops_with "Password must be at least 8 characters"
        ∨ handleSubmit st out = stops_with "Passwords do not match")).
Proof.
  unfold submit_disabled, useAuth_isLoading. split.
  - intros ->. by rewrite orb_true_r.
  - intros Hen.
    apply orb_false_iff in Hen as [Hen Hc]. apply orb_false_iff in Hen as [Hen Hp].
    apply orb_false_iff in Hen as [Hen He]. apply orb_false_iff in Hen as [Hl Hn].
    apply orb_false_iff in Hl as [_ Hh].
    apply negb_false_iff in Hc, Hp, He, Hn, Hh.
    split; [done|]. do 4 (split; [by apply truthy_not_blank|]).
    unfold handleSubmit. rewrite Hn, He, Hp. simpl.
    destruct (N.of_nat (List.length (password st)) <? 8)%N; [by right; left|].
    case_bool_decide; simpl; [by left | by right; right].
Qed.

(** What the form shows after a submit that fails validation is the
    validation message, one of the five, whatever error the store
    holds. *)
Theorem validation_error_is_displayed (st : form_state) (out : signup_outcome)
    (init error : option string) :
  ¬ form_valid st →
  ∃ msg, msg ∈ validation_messages
         ∧ handleSubmit st out = stops_with msg
         ∧ displayError (localError_after init (handleSubmit st out)) error = Some msg.
Proof.
  intros Hinv.
  destruct (handleSubmit_outcome st out) as [(msg & Hin & Hrun & _) | [Hval _]];
    [|contradiction].
  exists msg. rewrite Hrun. repeat split; [done|]. simpl.
  unfold displayError. rewrite bool_decide_eq_false_2; [done|].
  by apply validation_message_nonempty.
Qed.

(** A submit of the form through the hook navigates to [/notebooks]
    exactly when the fields are valid and the store's signup resolves to
    [true]; otherwise it does not navigate, and it logs to the console
    exactly when the fields are valid and the store's signup throws. *)
Theorem submit_navigates_on_success (st : form_state) (store_signup : awaited bool) :
  ((submit_through_hook st store_signup).2 = [RouterPush "/notebooks"]
   ↔ form_valid st ∧ store_signup = Returned true)
  ∧ ((submit_through_hook st store_signup).2 = [] ∨
     (submit_through_hook st store_signup).2 = [RouterPush "/notebooks"])
  ∧ (ConsoleError ∈ (submit_through_hook st store_signup).1
     ↔ form_valid st ∧ store_signup = Threw).
Proof.
  unfold submit_through_hook. cbn [fst snd].
  destruct (handleSubmit_outcome st (outcome_of (handleSignup store_signup).2))
    as [(msg & _ & Hrun & Hinv) | [Hval Hrun]]; rewrite Hrun.
  - rewrite stops_with_no_signup. split; [|split].
    + split; [discriminate | tauto].
    + by left.
    + split; [|tauto]. unfold stops_with. intros Hin.
      repeat (apply elem_of_cons in Hin as [Heq | Hin]; [discriminate Heq|]).
      by apply elem_of_nil in Hin.
  - rewrite signup_run_invokes. unfold signup_run.
    destruct store_signup as [[|]|]; simpl; (split; [|split]);
      try (by left); try (by right);
      try (split; [discriminate | by intros [_ [= ]]]);
      try (split; [done | by intros [_ [= ]]]).
    + split; [|by intros [_ [= ]]]. intros Hin.
      repeat (apply elem_of_cons in Hin as [Heq | Hin]; [discriminate Heq|]).
      by apply elem_of_nil in Hin.
    + split; [|by intros [_ [= ]]]. intros Hin.
      repeat (apply elem_of_cons in Hin as [Heq | Hin]; [discriminate Heq|]).
      by apply elem_of_nil in Hin.
    + split; [done|]. intros _.
      do 3 (apply elem_of_cons; right). apply elem_of_cons. by left.
Qed.

End FormFacts.

Lemma validation_error_is_displayed_witness :
  ∃ msg, msg ∈ Hooks.validation_messages
         ∧ Frontend.handleSubmit
             {| Frontend.name := Text.js "Ann"; Frontend.email := Text.js " ";
                Frontend.password := Text.js "password123";
                Frontend.confirmPassword := Text.js "password123" |}
             (Frontend.Resolves true)
           = Frontend.stops_with msg
         ∧ Hooks.displayError
             (Frontend.localError_after None
                (Frontend.handleSubmit
                   {| Frontend.name := Text.js "Ann"; Frontend.email := Text.js " ";
                      Frontend.password := Text.js "password123";
                      Frontend.confirmPassword := Text.js "password123" |}
                   (Frontend.Resolves true)))
             (Some "Signup failed")
           = Some msg.
Proof.
  apply (validation_error_is_displayed
           {| Frontend.name := Text.js "Ann"; Frontend.email := Text.js " ";
              Frontend.password := Text.js "password123";
              Frontend.confirmPassword := Text.js "password123" |}).
  intros (_ & Hemail & _). apply Hemail. reflexivity.
Defined.

(** A name typed with surrounding spaces is sent as typed. *)
Example signup_sends_fields_untrimmed :
  Frontend.handleSubmit
    {| Frontend.name := Text.js " Ann "; Frontend.email := Text.js "ann@x.com";
       Frontend.password := Text.js "password123";
       Frontend.confirmPassword := Text.js "password123" |} (Frontend.Resolves true)
  = [Frontend.PreventDefault; Frontend.SetLocalError None;
     Frontend.Signup {| Frontend.cred_name := Text.js " Ann ";
                        Frontend.cred_email := Text.js "ann@x.com";
                        Frontend.cred_password := Text.js "password123" |}].
Proof. reflexivity. Qed.

(** ** Redirects, the effect of the hook and the runtime configuration *)

#[local] Set Warnings "-clear-no-such-hyp".

Section HookFacts.
Import Frontend Hooks.

Lemma storage_after_redirect (pathname : string) (s : storage) :
  storage_after (redirect_to_login pathname) s = <[redirect_key := pathname]> s.
Proof. reflexivity. Qed.

(** When a run of [checkAuthentication] sends the visitor to [/login], it
    has stored the page's path. *)
Lemma redirect_stores_pathname (st : auth_store) (pathname : string)
    (required : awaited bool) (valid : bool) (s : storage) :
  RouterPush "/login" ∈ checkAuthentication st pathname required valid →
  storage_after (checkAuthentication st pathname required valid) s
  = <[redirect_key := pathname]> s.
Proof.
  unfold checkAuthentication, check_credentials.
  destruct (hasHydrated st); simpl; [|by intros ?%elem_of_nil].
  destruct (authRequired st) as [[|]|], required as [[|]|], (isAuthenticated st),
    valid; simpl; try reflexivity; intros Hin;
    repeat (apply elem_of_cons in Hin as [Heq | Hin]; [discriminate Heq|]);
    by apply elem_of_nil in Hin.
Qed.

(** The redirect round trip: after [ProtectedRoute] has sent a visitor
    of a page to [/login], a successful [handleLogin] navigates back to
    that page and removes the stored path, so that the login after it
    goes to [/notebooks]; a login that fails or throws navigates nowhere
    and leaves the storage as it is. *)
Theorem login_returns_to_protected_page (st : auth_store) (pathname : string)
    (required : awaited bool) (valid : bool) (s : storage) :
  RouterPush "/login" ∈ checkAuthentication st pathname required valid →
  pathname ≠ "" →
  let s' := storage_after (checkAuthentication st pathname required valid) s in
  handleLogin (Returned true) s'
  = (delete redirect_key s, [RouterPush pathname], Returned true)
  ∧ handleLogin (Returned true) (delete redirect_key s)
    = (delete redirect_key s, [RouterPush "/notebooks"], Returned true)
  ∧ handleLogin (Returned false) s' = (s', [], Returned false)
  ∧ handleLogin Threw s' = (s', [], Threw).
Proof.
  intros Hredirect Hne s'. subst s'.
  rewrite (redirect_stores_pathname st pathname required valid s Hredirect).
  unfold handleLogin. rewrite lookup_insert_eq, lookup_delete_eq.
  rewrite bool_decide_eq_false_2 by done.
  by rewrite delete_insert_eq.
Qed.

(** The effect of [useAuth] verifies the credentials ([checkAuth])
    exactly when the store has hydrated and authentication is required,
    as known or as just answered by [checkAuthRequired]; it never
    navigates and stores no redirect path. *)
Theorem useAuth_effect_checks_when_required (st : auth_store) (required : awaited bool) :
  (CallCheckAuth ∈ useAuth_effect st required
   ↔ hasHydrated st = true
     ∧ (authRequired st = Some true
        ∨ authRequired st = None ∧ required = Returned true))
  ∧ (∀ target, RouterPush target ∉ useAuth_effect st required)
  ∧ (∀ pathname, StoreRedirect pathname ∉ useAuth_effect st required).
Proof.
  unfold useAuth_effect.
  destruct (hasHydrated st), (authRequired st) as [[|]|], required as [[|]|];
    simpl; (split; [|split]); set_solver.
Qed.

End HookFacts.

Lemma login_returns_to_protected_page_witness :
  Hooks.handleLogin (Frontend.Returned true)
    (Hooks.storage_after
       (Frontend.checkAuthentication
          {| Frontend.isAuthenticated := false; Frontend.hasHydrated := true;
             Frontend.authRequired := Some true |}
          "/notebooks/7" (Frontend.Returned true) true) ∅)
  = (delete Hooks.redirect_key ∅, [Frontend.RouterPush "/notebooks/7"],
     Frontend.Returned true)
  ∧ Hooks.handleLogin (Frontend.Returned true) (delete Hooks.redirect_key ∅)
    = (delete Hooks.redirect_key ∅, [Frontend.RouterPush "/notebooks"],
       Frontend.Returned true)
  ∧ Hooks.handleLogin (Frontend.Returned false)
      (Hooks.storage_after
         (Frontend.checkAuthentication
            {| Frontend.isAuthenticated := false; Frontend.hasHydrated := true;
               Frontend.authRequired := Some true |}
            "/notebooks/7" (Frontend.Returned true) true) ∅)
    = (Hooks.storage_after
         (Frontend.checkAuthentication
            {| Frontend.isAuthenticated := false; Frontend.hasHydrated := true;
               Frontend.authRequired := Some true |}
            "/notebooks/7" (Frontend.Returned true) true) ∅, [],
       Frontend.Returned false)
  ∧ Hooks.handleLogin Frontend.Threw
      (Hooks.storage_after
         (Frontend.checkAuthentication
            {| Frontend.isAuthenticated := false; Frontend.hasHydrated := true;
               Frontend.authRequired := Some true |}
            "/notebooks/7" (Frontend.Returned true) true) ∅)
    = (Hooks.storage_after
         (Frontend.checkAuthentication
            {| Frontend.isAuthenticated := false; Frontend.hasHydrated := true;
               Frontend.authRequired := Some true |}
            "/notebooks/7" (Frontend.Returned true) true) ∅, [],
       Frontend.Threw).
Proof.
  apply (login_returns_to_protected_page
           {| Frontend.isAuthenticated := false; Frontend.hasHydrated := true;
              Frontend.authRequired := Some true |}
           "/notebooks/7" (Frontend.Returned true) true ∅).
  - simpl. apply elem_of_cons. right. apply elem_of_cons. by left.
  - discriminate.
Defined.

Section ConfigFacts.
Import Json Config.

(** The configuration endpoint always answers with one member, [apiUrl],
    holding a string. A non-empty [API_URL] is answered as it is,
    whatever [NEXT_PUBLIC_API_URL] holds; an [API_URL] that is unset or
    empty falls through to [NEXT_PUBLIC_API_URL]; the answer is the
    empty string exactly when both are unset or empty, and a non-empty
    answer is always the value of one of the two variables. *)
Theorem config_api_url (env : environment) (request : NextRequest) :
  ∃ v, GET env request = [("apiUrl", JStr v)]
       ∧ (∀ a, env !! "API_URL" = Some a → a ≠ "" → v = a)
       ∧ (unset_or_empty (env !! "API_URL") →
          ∀ b, env !! "NEXT_PUBLIC_API_URL" = Some b → v = b)
       ∧ (v = "" ↔ unset_or_empty (env !! "API_URL")
                   ∧ unset_or_empty (env !! "NEXT_PUBLIC_API_URL"))
       ∧ (v ≠ "" → env !! "API_URL" = Some v ∨ env !! "NEXT_PUBLIC_API_URL" = Some v).
Proof.
  unfold GET, js_or, unset_or_empty.
  destruct (env !! "API_URL") as [a|]; [destruct (decide (a = "")) as [->|Ha]|].
  - rewrite bool_decide_eq_true_2 by done.
    destruct (env !! "NEXT_PUBLIC_API_URL") as [b|];
      [destruct (decide (b = "")) as [->|Hb]|].
    + rewrite bool_decide_eq_true_2 by done. exists "". naive_solver.
    + rewrite bool_decide_eq_false_2 by done. exists b. naive_solver.
    + exists "". naive_solver.
  - rewrite !bool_decide_eq_false_2 by done. exists a. naive_solver.
  - destruct (env !! "NEXT_PUBLIC_API_URL") as [b|];
      [destruct (decide (b = "")) as [->|Hb]|].
    + rewrite bool_decide_eq_true_2 by done. exists "". naive_solver.
    + rewrite bool_decide_eq_false_2 by done. exists b. naive_solver.
    + exists "". naive_solver.
Qed.

End ConfigFacts.

(** ** The auth store of the plan *)

Section PlanStoreFacts.
Import Json PlanStore.

Lemma step_consistent (st : AuthState) (c : call) :
  consistent st → consistent (step st c).
Proof.
  intros [Hflag Htoken]. unfold consistent.
  destruct c as [r|r|]; simpl; [| |split; [split; [done|by intros [? ?]]|done]].
  all: unfold authenticate;
    destruct r as [|[|] [parsed|]]; simpl; try done;
    destruct (members parsed); simpl; try done;
    (split; [split; [by eexists | done] | done]).
Qed.

Lemma run_consistent (calls : list call) (st : AuthState) :
  consistent st → consistent (run calls st).
Proof.
  unfold run. revert st. induction calls as [|c calls IH]; intros st Hst; [done|].
  simpl. by apply IH, step_consistent.
Qed.

(** In every state the store reaches from the initial one by signups,
    signins and logouts, whatever the server answered, [isAuthenticated]
    is [true] exactly when a user is held, and no token is held while it
    is [false]; a logout brings the store back to the initial state. *)
Theorem plan_store_consistent (calls : list call) :
  consistent (run calls initial)
  ∧ run (calls ++ [CallLogout]) initial = initial.
Proof.
  split.
  - apply run_consistent. split; [split; [done | by intros [? ?]] | done].
  - unfold run. by rewrite fold_left_app.
Qed.

(** Backend and store together: when the signup endpoint answers, the
    store that receives its response body holds the id of the record the
    signup created, the requested e-mail and name, and the issued token,
    is authenticated, and the form navigates to [/notebooks]; on an
    answer that is not [ok] the store is left as it was and the form
    does not navigate. *)
Theorem store_after_signup `{!Surreal.Builtins} (tbl tbl' : Surreal.user_table)
    (request : Api.SignupRequest.t) (rid salt : string) (now : Z)
    (response : Api.TokenResponse.t) (st : AuthState) :
  Api.signup tbl request rid salt now = (tbl', inr response) →
  plan_handleSubmit st (Answer true (Some (JObj (Api.TokenResponse.body response))))
  = ({| user := Some {| id := Some (JStr rid);
                        email := Some (JStr (Api.SignupRequest.email request));
                        name := Some (JStr (Api.SignupRequest.name request)) |};
        token := Some (JStr (Surreal.jwt_sign
                               (Surreal.issue Surreal.user_access rid now)));
        isAuthenticated := true |},
     [Frontend.RouterPush "/notebooks"])
  ∧ ∀ body, plan_handleSubmit st (Answer false body) = (st, []).
Proof.
  unfold Api.signup, Surreal.db_signup.
  destruct (Surreal.create_user tbl rid _) as [t [e|]]; [intros [= ]|].
  intros [= _ <-]. split; [|done]. reflexivity.
Qed.

End PlanStoreFacts.

Lemma store_after_signup_witness :
  PlanStore.plan_handleSubmit PlanStore.initial
    (PlanStore.Answer true
       (Some (Json.JObj
                (Api.TokenResponse.body
                   {| Api.TokenResponse.token := "jwt.user:ann.mac";
                      Api.TokenResponse.user_id := "user:ann";
                      Api.TokenResponse.email := "ann@x.com";
                      Api.TokenResponse.name := "Ann" |}))))
  = ({| PlanStore.user :=
          Some {| PlanStore.id := Some (Json.JStr "user:ann");
                  PlanStore.email := Some (Json.JStr "ann@x.com");
                  PlanStore.name := Some (Json.JStr "Ann") |};
        PlanStore.token :=
          Some (Json.JStr (@Surreal.jwt_sign Sample.builtins
                             (Surreal.issue Surreal.user_access "user:ann" 0)));
        PlanStore.isAuthenticated := true |},
     [Frontend.RouterPush "/notebooks"])
  ∧ ∀ body, PlanStore.plan_handleSubmit PlanStore.initial (PlanStore.Answer false body)
            = (PlanStore.initial, []).
Proof.
  apply (@store_after_signup Sample.builtins ∅ Sample.one_user Sample.ann_request
           "user:ann" "salt1" 0).
  vm_compute. reflexivity.
Defined.

(** ** The data migration of Step 1.4 *)

Section DataMigrationFacts.
Import Surreal Api Core DataMigration.

Lemma assign_orphans_lookup (tbl : notebook_table) (rid : string) :
  assign_orphans tbl !! rid
  = (λ r, match user_id r with None => assign_admin r | Some _ => r end)
      <$> tbl !! rid.
Proof. unfold assign_orphans. apply lookup_fmap. Qed.

(** After [UPDATE notebook SET user_id = user:admin WHERE user_id = NONE]
    no notebook is without an owner: the notebooks that had none belong
    to [user:admin] and are otherwise as they were, the notebooks that
    had an owner are stored unchanged, none is added or removed, and a
    second run of the statement changes nothing. *)
Theorem assign_orphans_leaves_no_orphan (tbl : notebook_table) (rid : string) :
  (∀ r, assign_orphans tbl !! rid = Some r → is_Some (user_id r))
  ∧ (∀ r, tbl !! rid = Some r → user_id r = None →
       assign_orphans tbl !! rid
       = Some {| name := name r; description := description r;
                 archived := archived r; user_id := Some "user:admin" |})
  ∧ (∀ r, tbl !! rid = Some r → is_Some (user_id r) →
       assign_orphans tbl !! rid = Some r)
  ∧ (assign_orphans tbl !! rid = None ↔ tbl !! rid = None)
  ∧ assign_orphans (assign_orphans tbl) = assign_orphans tbl.
Proof.
  rewrite assign_orphans_lookup.
  split; [|split; [|split; [|split]]].
  - destruct (tbl !! rid) as [r0|]; simpl; [|discriminate].
    intros r [= <-]. destruct (user_id r0) eqn:Ho; simpl; [by rewrite Ho|done].
  - intros r -> Ho. simpl. by rewrite Ho.
  - intros r -> [o Ho]. simpl. by rewrite Ho.
  - by rewrite fmap_None.
  - apply map_eq. intros k. rewrite !assign_orphans_lookup.
    destruct (tbl !! k) as [r0|]; simpl; [|done].
    destruct (user_id r0) eqn:Ho; simpl; [by rewrite Ho | done].
Qed.

(** The migration does not change what a user can see: for a caller who
    is not [user:admin] and has not the role [admin], the list of
    notebooks is the same before and after. An administrator by role
    still sees every notebook, and the identity [user:admin] now owns
    what had no owner. *)
Theorem assign_orphans_keeps_visibility (caller : auth) (tbl : notebook_table) :
  (auth_id caller ≠ admin_id → auth_role caller ≠ "admin" →
   list_resources caller (assign_orphans tbl) = list_resources caller tbl)
  ∧ (auth_role caller = "admin" →
     list_resources caller (assign_orphans tbl) = assign_orphans tbl)
  ∧ (auth_id caller = admin_id →
     ∀ rid r, tbl !! rid = Some r → user_id r = None →
       read caller rid (assign_orphans tbl) = Some (assign_admin r)).
Proof.
  split; [|split].
  - intros Hid Hrole. apply map_eq. intros k.
    rewrite !list_resources_lookup. unfold read.
    rewrite assign_orphans_lookup.
    destruct (tbl !! k) as [r|]; simpl; [|done].
    unfold permitted, owner, notebook_owned.
    rewrite !(bool_decide_eq_false_2 (auth_role caller = "admin")) by done.
    rewrite !orb_false_r.
    destruct (user_id r) as [o|] eqn:Ho; simpl; [by rewrite Ho|].
    rewrite bool_decide_eq_false_2; [done|].
    intros [= Heq]. by apply Hid.
  - intros Hrole. apply map_eq. intros k.
    rewrite list_resources_lookup. unfold read.
    destruct (assign_orphans tbl !! k) as [r|]; [|done].
    by rewrite permitted_admin.
  - intros Hid rid r Hr Ho. unfold read.
    rewrite assign_orphans_lookup, Hr. simpl. rewrite Ho.
    unfold owner, notebook_owned. simpl. rewrite <- Hid.
    by rewrite permitted_owner.
Qed.

End DataMigrationFacts.

(** ** Creation under the table permissions *)

Section CreationFacts.
Import Surreal Api Core.

(** [Notebook.create] and the permission clause of the notebook table
    together: the record that [create] stores for a caller satisfies the
    clause for that caller, so the caller reads it back and finds it in
    the list of notebooks right away, while another user without the
    role [admin] neither reads nor lists it. The clause itself refuses a
    record whose owner is someone else's id unless the caller is an
    administrator. *)
Theorem created_notebook_is_its_creators (self : Notebook) (creator other : auth)
    (rid : string) (tbl : notebook_table) :
  auth_id other ≠ auth_id creator → auth_role other ≠ "admin" →
  let created := create self (auth_id creator) rid tbl in
  permitted creator (owner created.2) = true
  ∧ read creator rid created.1 = Some created.2
  ∧ list_resources creator created.1 !! rid = Some created.2
  ∧ read other rid created.1 = None
  ∧ list_resources other created.1 !! rid = None
  ∧ permitted other (owner created.2) = false.
Proof.
  intros Hne Hrole created. subst created.
  unfold create, ObjectModel_create. cbn [fst snd].
  assert (∀ r : Notebook, user_id r = Some (auth_id creator) →
            permitted creator (owner r) = true
            ∧ permitted other (owner r) = false) as Hperm.
  { intros r Ho. unfold owner, notebook_owned. rewrite Ho. split.
    - apply permitted_owner.
    - unfold permitted. rewrite !bool_decide_eq_false_2; [done|done|].
      intros [= Heq]. by apply Hne. }
  destruct (Hperm {| name := name self; description := description self;
                     archived := archived self;
                     user_id := Some (auth_id creator) |} eq_refl) as [Hc Ho].
  rewrite !list_resources_lookup. unfold read.
  rewrite lookup_insert_eq, Hc, Ho. done.
Qed.

End CreationFacts.

Lemma created_notebook_is_its_creators_witness :
  Surreal.permitted Sample.bob
    (Core.owner (Api.create Sample.plans "user:bob" "notebook:3" Sample.notebooks).2)
  = true
  ∧ Core.read Sample.bob "notebook:3"
      (Api.create Sample.plans "user:bob" "notebook:3" Sample.notebooks).1
    = Some (Api.create Sample.plans "user:bob" "notebook:3" Sample.notebooks).2
  ∧ Core.list_resources Sample.bob
      (Api.create Sample.plans "user:bob" "notebook:3" Sample.notebooks).1
    !! "notebook:3"
    = Some (Api.create Sample.plans "user:bob" "notebook:3" Sample.notebooks).2
  ∧ Core.read Sample.ann "notebook:3"
      (Api.create Sample.plans "user:bob" "notebook:3" Sample.notebooks).1
    = None
  ∧ Core.list_resources Sample.ann
      (Api.create Sample.plans "user:bob" "notebook:3" Sample.notebooks).1
    !! "notebook:3"
    = None
  ∧ Surreal.permitted Sample.ann
      (Core.owner (Api.create Sample.plans "user:bob" "notebook:3" Sample.notebooks).2)
    = false.
Proof.
  apply (created_notebook_is_its_creators Sample.plans Sample.bob Sample.ann
           "notebook:3" Sample.notebooks); discriminate.
Defined.
